(** * A shallow embedding of [src/lib/sqlalchemy_sandbox.py]

    The script declares one SQLAlchemy model, [Student], mapped to the table
    [students] of an in-memory SQLite database, and then drives it through a
    [Session]: [add] and [commit] of new records, queries with [filter],
    [order_by(desc(Student.grade))] and [limit], a bulk [update] of the grades
    and a [delete].

    The behaviour of those calls is the behaviour of the declared schema
    under SQLAlchemy and SQLite:
    - every column is nullable (no [nullable=False] anywhere), so an unset
      attribute is stored as NULL, written [None] here;
    - [PrimaryKeyConstraint('id')] on an [Integer] column makes [id] the
      rowid: an insert without an id gets one more than the largest rowid in
      the table (1 for an empty table); when that largest rowid is already
      2^63-1, SQLite draws random candidates and takes the first unused one,
      and fails with SQLITE_FULL when it finds none;
    - [UniqueConstraint('email')] rejects a second equal non-NULL email; SQL
      treats NULLs as distinct, so several NULL emails coexist;
    - [CheckConstraint('grade BETWEEN 1 AND 12')] rejects a row whose check
      expression is false; on a NULL grade the expression is NULL, which is
      not a failure;
    - [String(55)] is only a declared type: SQLite does not enforce lengths;
    - [default=datetime.now()] calls [now] once, while the class body runs,
      and the resulting value is the column's constant default;
    - a flush of the one table runs the UPDATEs, then the INSERTs in the
      order of [session.add], then the DELETEs; a staged new object that
      carries the primary key of an object whose deletion is staged in the
      same flush is written as an UPDATE of that row (the unit of work's
      "row switch");
    - a failed flush rolls the whole transaction back at once (uncommitted
      changes included), expunges the staged objects and leaves the session
      inactive: every later flush, commit or query raises
      PendingRollbackError until [session.rollback()];
    - [Query.update] flushes the staged objects first (autoflush); a failed
      UPDATE statement is undone as a whole and the transaction goes on. *)

From Stdlib Require Import List ZArith Ascii String Bool Lia.
From Stdlib Require Import Sorting.Sorted Sorting.Permutation.
Import ListNotations.
Open Scope Z_scope.

(** ** The model: [class Student(Base)] *)

(** Date/time values are represented by a timestamp in [Z]. *)
Definition datetime := Z.

Record Student := mkStudent {
  id : option Z;
  name : option string;
  email : option string;
  grade : option Z;
  birthday : option datetime;
  enrolled_date : option datetime
}.

Definition set_id (s : Student) (k : Z) : Student :=
  mkStudent (Some k) (name s) (email s) (grade s) (birthday s) (enrolled_date s).

Definition set_grade (s : Student) (g : option Z) : Student :=
  mkStudent (id s) (name s) (email s) g (birthday s) (enrolled_date s).

Definition set_enrolled_date (s : Student) (d : option datetime) : Student :=
  mkStudent (id s) (name s) (email s) (grade s) (birthday s) d.

(** The declarative constructor [Student(name=..., email=..., grade=...,
    birthday=...)] sets the given keyword arguments; every other attribute,
    [id] and [enrolled_date] included, is [None] on the new object. It does
    not read the clock. *)
Definition new_Student (name0 email0 : option string) (grade0 : option Z)
    (birthday0 : option datetime) : Student :=
  mkStudent None name0 email0 grade0 birthday0 None.

(** The table [students] in the engine. What the class body fixes at
    definition time is the column default: [enrolled_date = Column(DateTime(),
    default=datetime.now())] evaluates [datetime.now()] once, at the moment
    the class statement runs ([now_at_class_definition]); that value is the
    default of every insert. [rowid_draws] stands for SQLite's random rowid
    candidates, drawn only when the largest rowid is already 2^63-1: given the
    rows of the table, the candidates it tries, in order. It is a parameter,
    so a statement about every table covers every outcome of the draws. *)
Record Table := mkTable {
  enrolled_date_default : datetime;
  rowid_draws : list Student -> list Z
}.

Definition define_Student (now_at_class_definition : datetime)
    (draws : list Student -> list Z) : Table :=
  mkTable now_at_class_definition draws.

(** ** Constraints of [__table_args__] *)

Inductive CommitError :=
| PrimaryKeyViolation   (* 'id_pk': an explicit id already stored *)
| UniqueEmailViolation  (* 'unique-email' *)
| GradeCheckViolation   (* 'grade_between_1_and_12' *)
| RowidFull             (* SQLITE_FULL: no unused rowid found *)
| StaleDataError        (* a row-switch UPDATE matched no row *)
| PendingRollbackError. (* the session is inactive after a failed flush *)

Inductive result (A : Type) :=
| Ok (a : A)
| Err (e : CommitError).
Arguments Ok {A} a.
Arguments Err {A} e.

(** [grade BETWEEN 1 AND 12] as SQLite evaluates a CHECK: a NULL grade makes
    the expression NULL, and only a false expression is a violation. *)
Definition grade_check (g : option Z) : bool :=
  match g with
  | None => true
  | Some v => (1 <=? v) && (v <=? 12)
  end.

(** The unique index on [email]: a NULL email never collides. *)
Definition email_taken (e : option string) (rs : list Student) : bool :=
  match e with
  | None => false
  | Some e0 =>
      existsb (fun r => match email r with
                        | Some e1 => String.eqb e0 e1
                        | None => false
                        end) rs
  end.

Definition has_id (k : Z) (r : Student) : bool :=
  match id r with
  | Some k' => k' =? k
  | None => false
  end.

Definition id_taken (k : Z) (rs : list Student) : bool :=
  existsb (has_id k) rs.

Definition opt_max (a b : option Z) : option Z :=
  match a, b with
  | Some x, Some y => Some (Z.max x y)
  | Some x, None => Some x
  | None, y => y
  end.

Fixpoint largest_id (rs : list Student) : option Z :=
  match rs with
  | [] => None
  | r :: rs' => opt_max (id r) (largest_id rs')
  end.

Definition INT64_MAX : Z := 9223372036854775807.

(** A random candidate SQLite accepts: a positive 64-bit rowid not in use. *)
Definition rowid_unused (rs : list Student) (k : Z) : bool :=
  (0 <? k) && (k <=? INT64_MAX) && negb (id_taken k rs).

(** SQLite's rowid for an insert that gives none: one more than the largest
    rowid in the table, 1 for an empty table. When the largest rowid is
    already [INT64_MAX], the first unused one among the random candidates,
    or SQLITE_FULL when none of them is. *)
Definition next_rowid (t : Table) (rs : list Student) : result Z :=
  match largest_id rs with
  | None => Ok 1
  | Some m =>
      if m <? INT64_MAX then Ok (m + 1)
      else match find (rowid_unused rs) (rowid_draws t rs) with
           | Some k => Ok k
           | None => Err RowidFull
           end
  end.

(** ** One INSERT of a flush

    The row written for object [o]: [enrolled_date] falls back to the column
    default, [id] to the next rowid. SQLite checks the CHECK constraint
    first, then the rowid and the unique index. *)
Definition apply_defaults (t : Table) (o : Student) : Student :=
  match enrolled_date o with
  | Some _ => o
  | None => set_enrolled_date o (Some (enrolled_date_default t))
  end.

Definition insert_row (t : Table) (rs : list Student) (o : Student)
    : result Student :=
  let o1 := apply_defaults t o in
  if negb (grade_check (grade o1)) then Err GradeCheckViolation else
  match id o1 with
  | Some k =>
      if id_taken k rs then Err PrimaryKeyViolation
      else if email_taken (email o1) rs then Err UniqueEmailViolation
      else Ok o1
  | None =>
      match next_rowid t rs with
      | Err e => Err e
      | Ok k =>
          if email_taken (email o1) rs then Err UniqueEmailViolation
          else Ok (set_id o1 k)
      end
  end.

(** The INSERTs of a flush, in the order the objects were added. Returns the
    table afterwards and the persisted objects (with their [id] and
    defaulted [enrolled_date] filled in), or the first error. *)
Fixpoint insert_all (t : Table) (rs : list Student) (objs : list Student)
    : result (list Student * list Student) :=
  match objs with
  | [] => Ok (rs, [])
  | o :: os =>
      match insert_row t rs o with
      | Err e => Err e
      | Ok r =>
          match insert_all t (rs ++ [r]) os with
          | Err e => Err e
          | Ok (rs', ps) => Ok (rs', r :: ps)
          end
      end
  end.

(** ** The row switch

    A staged new object whose [id] is the id of an object staged for
    deletion in the same flush: SQLAlchemy drops that DELETE and updates the
    row instead. *)
Definition reuses_deleted_id (dels : list Z) (o : Student) : bool :=
  match id o with
  | Some k => existsb (Z.eqb k) dels
  | None => false
  end.

(** The UPDATE sets the attributes the new object carries; the columns it
    leaves unset keep the row's values. *)
Definition keep_or {A : Type} (v old : option A) : option A :=
  match v with
  | Some x => Some x
  | None => old
  end.

Definition switch_merge (r o : Student) : Student :=
  mkStudent (id r) (keep_or (name o) (name r)) (keep_or (email o) (email r))
    (keep_or (grade o) (grade r)) (keep_or (birthday o) (birthday r))
    (keep_or (enrolled_date o) (enrolled_date r)).

(** [UPDATE students SET ... WHERE students.id = k]: SQLite tests the CHECK
    when the statement sets [grade] and the unique index when it sets
    [email]; an UPDATE that matches no row makes SQLAlchemy raise
    StaleDataError. *)
Definition switch_row (rs : list Student) (k : Z) (o : Student)
    : result (list Student) :=
  if negb (id_taken k rs) then Err StaleDataError
  else if negb (grade_check (grade o)) then Err GradeCheckViolation
  else if email_taken (email o) (filter (fun r => negb (has_id k r)) rs)
  then Err UniqueEmailViolation
  else Ok (map (fun r => if has_id k r then switch_merge r o else r) rs).

Definition keep_insert (o : Student)
    (x : result (list Student * list Z * list Student))
    : result (list Student * list Z * list Student) :=
  match x with
  | Err e => Err e
  | Ok (rs, dels, ins) => Ok (rs, dels, o :: ins)
  end.

(** The UPDATEs of a flush, in the order the objects were added. Returns the
    table afterwards, the deletions still to run, and the objects left to
    INSERT, in order. *)
Fixpoint switch_all (rs : list Student) (dels : list Z) (objs : list Student)
    : result (list Student * list Z * list Student) :=
  match objs with
  | [] => Ok (rs, dels, [])
  | o :: os =>
      match id o with
      | Some k =>
          if existsb (Z.eqb k) dels then
            match switch_row rs k o with
            | Err e => Err e
            | Ok rs1 => switch_all rs1 (filter (fun k' => negb (k' =? k)) dels) os
            end
          else keep_insert o (switch_all rs dels os)
      | None => keep_insert o (switch_all rs dels os)
      end
  end.

(** [DELETE FROM students WHERE students.id = ?] for each staged deletion. *)
Definition delete_rows (ks : list Z) (rs : list Student) : list Student :=
  filter (fun r => negb (existsb (fun k => has_id k r) ks)) rs.

(** ** The session

    [committed] is the content of [students] as of the last commit; [rows]
    its content in the current transaction (the two differ after an UPDATE
    not yet committed); [new] the objects staged by [session.add], in order;
    [deleted] the ids of the objects staged by [session.delete]; [inactive]
    is set by a failed flush. *)
Record Session := MkSession {
  committed : list Student;
  rows : list Student;
  new : list Student;
  deleted : list Z;
  inactive : bool
}.

(** An active session whose transaction holds no uncommitted change. *)
Definition mkSession (rs new0 : list Student) (deleted0 : list Z) : Session :=
  MkSession rs rs new0 deleted0 false.

Definition empty_session : Session := mkSession [] [] [].

(** [session.add(obj)] of an object not yet in the session: the object is
    staged after the others, and nothing is checked yet. An object is given
    by its attribute values, so each call stages one more object: two calls
    with equal values stand for two distinct Python objects. (Adding an
    object that is already pending or persistent does nothing in
    SQLAlchemy; the script never does it.) *)
Definition add (s : Session) (o : Student) : Session :=
  MkSession (committed s) (rows s) (new s ++ [o]) (deleted s) (inactive s).

(** [session.delete(obj)]: only a persistent object (one with an id) can be
    deleted; SQLAlchemy refuses a transient one. *)
Definition delete (s : Session) (o : Student) : option Session :=
  match id o with
  | Some k => Some (MkSession (committed s) (rows s) (new s) (deleted s ++ [k]) (inactive s))
  | None => None
  end.

(** [session.flush()]: the UPDATEs of the row switches, the INSERTs, then the
    DELETEs that remain. Returns the rows of the transaction afterwards and
    the INSERTed objects, persisted, in the order they were added. *)
Definition flush (t : Table) (s : Session) : result (list Student * list Student) :=
  match switch_all (rows s) (deleted s) (new s) with
  | Err e => Err e
  | Ok (rs1, dels, ins) =>
      match insert_all t rs1 ins with
      | Err e => Err e
      | Ok (rs2, ps) => Ok (delete_rows dels rs2, ps)
      end
  end.

(** The session after a failed flush: the transaction is rolled back, so
    the table is back to its committed rows; the staged objects are
    expunged and the staged deletions forgotten; the session is inactive. *)
Definition after_flush_error (s : Session) : Session :=
  MkSession (committed s) (committed s) [] [] true.

(** [session.commit()]: on an inactive session it raises
    PendingRollbackError and changes nothing. Otherwise it flushes; on
    success the transaction is committed and the INSERTed objects are
    returned, persisted; on a failed flush the transaction is rolled back
    and the session left inactive. *)
Definition commit (t : Table) (s : Session) : Session * result (list Student) :=
  if inactive s then (s, Err PendingRollbackError) else
  match flush t s with
  | Ok (rs', ps) => (mkSession rs' [] [], Ok ps)
  | Err e => (after_flush_error s, Err e)
  end.

(** [session.rollback()]: the transaction is discarded; the table is back to
    its committed rows, nothing is staged, and the session is active. *)
Definition rollback (s : Session) : Session := mkSession (committed s) [] [].

(** ** Queries

    A query autoflushes the staged objects first, and on an inactive session
    raises PendingRollbackError. The queries below are evaluated on active
    sessions with nothing staged, where they read the rows of the
    transaction. *)

(** [session.query(Student).filter(p)]: the matching rows. *)
Definition query_filter (p : Student -> bool) (s : Session) : list Student :=
  filter p (rows s).

(** [query.first()]: the first row, or [None]. *)
Definition first (l : list Student) : option Student := hd_error l.

(** [Student.id == k] and [Student.name == n]: NULL never compares equal. *)
Definition id_eq (k : Z) : Student -> bool := has_id k.

Definition name_eq (n : string) (r : Student) : bool :=
  match name r with
  | Some n' => String.eqb n' n
  | None => false
  end.

(** ORDER BY in SQLite places NULL below every integer; this is the order
    [grade_le] decides. *)
Definition grade_le (a b : option Z) : bool :=
  match a, b with
  | None, _ => true
  | Some _, None => false
  | Some x, Some y => x <=? y
  end.

(** [order_by(desc(Student.grade))]: the engine may return the rows in any
    order that is a permutation of the table and is descending in grade;
    rows with equal grades come in an order it does not specify. *)
Definition order_by_grade_desc (rs l : list Student) : Prop :=
  Permutation rs l /\
  Sorted (fun a b => grade_le (grade b) (grade a) = true) l.

(** [.limit(n)]: the first [n] rows in the current order. *)
Definition limit (n : nat) (l : list Student) : list Student := firstn n l.

(** ** Bulk update

    [session.query(Student).update({Student.grade: Student.grade + 1})]
    raises PendingRollbackError on an inactive session. Otherwise it first
    flushes the staged objects (autoflush), with the outcome of a failed
    flush; then it runs [UPDATE students SET grade = grade + 1] on the rows
    of the transaction; NULL + 1 is NULL. The CHECK constraint is tested on
    each updated row; a violation aborts the statement and undoes all of its
    changes, and the transaction goes on. The result is the number of rows
    matched. (Grades that pass the CHECK stay far from the 64-bit bound.) *)
Definition inc_grade (r : Student) : Student :=
  set_grade r (option_map (fun g => g + 1) (grade r)).

Definition update_grade_inc (t : Table) (s : Session) : Session * result nat :=
  if inactive s then (s, Err PendingRollbackError) else
  match flush t s with
  | Err e => (after_flush_error s, Err e)
  | Ok (rs, _) =>
      let rs' := map inc_grade rs in
      if forallb (fun r => grade_check (grade r)) rs'
      then (MkSession (committed s) rs' [] [] false, Ok (List.length rs'))
      else (MkSession (committed s) rs [] [] false, Err GradeCheckViolation)
  end.

(** ** The script's objects *)

Definition albert_einstein : Student :=
  new_Student (Some "Albert Einstein"%string) (Some "albert.einstein@zurich.edu"%string)
    (Some 6) (Some 0).

Definition alan_turing : Student :=
  new_Student (Some "Alan Turing"%string) (Some "alan.turing@sherborne.edu"%string)
    (Some 11) (Some 1).

(** A run of the engine in which no random rowid candidate is usable. The
    candidates are only drawn once the largest rowid is 2^63-1, which no
    scenario below comes near. *)
Definition no_draws (rs : list Student) : list Z := [].

(** ** Scenarios and the claims as worded *)

(** C1 as worded: a second record with the same email is refused, whatever
    the email is. *)
Definition C1_as_worded : Prop :=
  forall (t : Table) (s : Session) (o1 o2 : Student),
    email o1 = email o2 -> In o1 (rows s) ->
    exists err, snd (commit t (add s o2)) = Err err.

(** Two students of the script with the email left unset. *)
Definition albert_no_email : Student :=
  new_Student (Some "Albert Einstein"%string) None (Some 6) (Some 0).

Definition alan_no_email : Student :=
  new_Student (Some "Alan Turing"%string) None (Some 11) (Some 1).

(** Another student given Albert Einstein's email. *)
Definition mileva_maric : Student :=
  new_Student (Some "Mileva Maric"%string) (Some "albert.einstein@zurich.edu"%string)
    (Some 9) (Some 3).

(** No object of [objs] takes over the id of a row whose deletion is staged
    in [s], so each of them is INSERTed. *)
Definition no_row_switch (s : Session) (objs : list Student) : bool :=
  forallb (fun o => negb (reuses_deleted_id (deleted s) o)) objs.

(** [out] is the outcome of a commit of [s] whose flush failed on a
    constraint: the error is raised; the transaction is rolled back, so the
    table holds its committed rows again, those of [committed s]; the session
    is inactive and refuses the next commit; and [session.rollback()] gives
    back an active session with those rows and nothing staged. *)
Definition rolled_back (t : Table) (s : Session)
    (out : Session * result (list Student)) : Prop :=
  (exists err, err <> PendingRollbackError /\ snd out = Err err) /\
  inactive (fst out) = true /\ rows (fst out) = committed s /\
  commit t (fst out) = (fst out, Err PendingRollbackError) /\
  rollback (fst out) = mkSession (committed s) [] [].

(** C9 as worded: a commit of a student whose email is longer than 55
    characters fails. *)
Definition C9_as_worded : Prop :=
  forall (t : Table) (s : Session) (o : Student) (e : string),
    email o = Some e -> (55 < String.length e)%nat ->
    exists err, snd (commit t (add s o)) = Err err.

(** An email of 56 characters. *)
Definition long_email : string :=
  "albert.einstein.physics.department.of.zurich@zurich.edu."%string.

Definition albert_long_email : Student :=
  new_Student (Some "Albert Einstein"%string) (Some long_email) (Some 6) (Some 0).

(** The script's table after both commits, and the order the script shows:
    Alan Turing (grade 11) before Albert Einstein (grade 6). *)
Definition script_rows : list Student :=
  rows (fst (commit (define_Student 0 no_draws)
               (add (add empty_session albert_einstein) alan_turing))).

(** C5 as worded: after a committed delete, queries by the former id and by
    the former name both come back empty. *)
Definition C5_as_worded : Prop :=
  forall (t : Table) (s s1 s' : Session) (o : Student) (ps : list Student),
    In o (rows s) -> delete s o = Some s1 -> commit t s1 = (s', Ok ps) ->
    (forall k, id o = Some k -> query_filter (id_eq k) s' = []) /\
    (forall n, name o = Some n -> query_filter (name_eq n) s' = []).

(** A second student called Albert Einstein, with another email. *)
Definition albert_einstein_2 : Student :=
  new_Student (Some "Albert Einstein"%string) (Some "a.einstein@princeton.edu"%string)
    (Some 12) (Some 2).

Definition two_alberts : Session :=
  fst (commit (define_Student 0 no_draws)
         (add (add empty_session albert_einstein) albert_einstein_2)).

(** The first Albert Einstein as stored in [two_alberts]. *)
Definition stored_albert : Student :=
  set_enrolled_date (set_id albert_einstein 1) (Some 0).

(** [p] is the persisted version of the staged object [o]: it carries an id,
    and the attributes given to the constructor unchanged. *)
Definition persisted_as (o p : Student) : Prop :=
  exists k, id p = Some k /\ name p = name o /\ email p = email o /\
            grade p = grade o /\ birthday p = birthday o.

(** C7 as worded: the increment either succeeds, with every stored grade an
    integer in 1..12 afterwards, or fails and changes nothing. *)
Definition C7_as_worded : Prop :=
  forall (t : Table) (s : Session),
    (exists n, snd (update_grade_inc t s) = Ok n /\
       rows (fst (update_grade_inc t s)) = map inc_grade (rows s) /\
       Forall (fun r => exists g, grade r = Some g /\ 1 <= g <= 12)
         (rows (fst (update_grade_inc t s)))) \/
    (exists err, update_grade_inc t s = (s, Err err)).

(** The table after committing Albert Einstein with no grade. *)
Definition albert_no_grade_session : Session :=
  fst (commit (define_Student 0 no_draws)
         (add empty_session (set_grade albert_einstein None))).

(** A student enrolled after the script's two. *)
Definition marie_curie : Student :=
  new_Student (Some "Marie Curie"%string) (Some "marie.curie@sorbonne.fr"%string)
    (Some 12) (Some 3).

(** C8 as worded: once a student is deleted, no later successful insert is
    given its id. *)
Definition C8_as_worded : Prop :=
  forall (t : Table) (s s1 s2 s3 : Session) (o o' : Student) (k : Z)
         (ps1 ps2 : list Student),
    In o (rows s) -> id o = Some k -> delete s o = Some s1 ->
    commit t s1 = (s2, Ok ps1) -> commit t (add s2 o') = (s3, Ok ps2) ->
    Forall (fun p => id p <> Some k) ps2.

Definition stored_alan : Student :=
  set_enrolled_date (set_id alan_turing 2) (Some 0).

Definition after_alan_deleted : Session :=
  fst (commit (define_Student 0 no_draws) (mkSession script_rows [] [2])).

(** [p] after a commit is a row of the table before, a row INSERTed by the
    commit, or a row updated in place: one with the id of a row before. *)
Definition row_origin (rs ps : list Student) (p : Student) : Prop :=
  In p (rs ++ ps) \/ exists r, In r rs /\ id r = id p /\ id p <> None.

(** ** The rest of the script *)

(** [session.query(func.count(Student.id)).first()]: COUNT of a column counts
    its non-NULL values; the query returns the one-tuple [(n,)]. *)
Definition count_ids (s : Session) : nat :=
  List.length (filter (fun r => match id r with Some _ => true | None => false end)
                      (rows s)).

(** The non-NULL emails of the stored rows, the keys of the unique index. *)
Definition stored_emails (rs : list Student) : list string :=
  flat_map (fun r => match email r with Some e => [e] | None => [] end) rs.

(** What the constraints of [__table_args__] make true of the stored rows:
    every row has an id, ids are distinct, non-NULL emails are distinct, and
    every grade passes the CHECK. *)
Definition table_ok (rs : list Student) : Prop :=
  NoDup (map id rs) /\ Forall (fun r => id r <> None) rs /\
  NoDup (stored_emails rs) /\ Forall (fun r => grade_check (grade r) = true) rs.

(** *** [Student.name.like('%Alan%')]

    SQLite's LIKE with its default settings: [%] matches any sequence of
    characters, [_] any single character, and any other character matches
    itself with ASCII letters compared without regard to case. There is no
    escape character. *)
Definition ascii_lower (c : Ascii.ascii) : Ascii.ascii :=
  let n := Ascii.nat_of_ascii c in
  if (65 <=? n)%nat && (n <=? 90)%nat then Ascii.ascii_of_nat (n + 32) else c.

Fixpoint like_match (p s : list Ascii.ascii) {struct p} : bool :=
  match p with
  | [] => match s with [] => true | _ :: _ => false end
  | c :: p' =>
      if Ascii.eqb c "%"%char then
        (fix star (s : list Ascii.ascii) : bool :=
           like_match p' s || match s with [] => false | _ :: s' => star s' end) s
      else
        match s with
        | [] => false
        | d :: s' =>
            (Ascii.eqb c "_"%char || Ascii.eqb (ascii_lower c) (ascii_lower d))
            && like_match p' s'
        end
  end.

(** [x LIKE pattern]. *)
Definition like (x pattern : string) : bool :=
  like_match (list_ascii_of_string pattern) (list_ascii_of_string x).

(** A pattern character that is not a wildcard. *)
Definition literal_char (c : Ascii.ascii) : bool :=
  negb (Ascii.eqb c "%"%char) && negb (Ascii.eqb c "_"%char).

(** [Student.name.like(pattern)]: a NULL name never matches. *)
Definition name_like (pattern : string) (r : Student) : bool :=
  match name r with
  | Some n => like n pattern
  | None => false
  end.

(** [Student.grade == g]. *)
Definition grade_eq (g : Z) (r : Student) : bool :=
  match grade r with
  | Some g' => g' =? g
  | None => false
  end.

(** [session.query(Student).filter(Student.name.like('%Alan%'),
    Student.grade == 11)]: the two conditions are joined by AND. *)
Definition alan_query (s : Session) : list Student :=
  query_filter (fun r => name_like "%Alan%" r && grade_eq 11 r) s.

(** *** [Student.__repr__] *)

(** Python's [str] of an integer, in decimal. [fuel] bounds the number of
    digits; [str_Z] gives [log2 n + 1], which is never fewer. *)
Fixpoint dec_digits (fuel : nat) (n : Z) (acc : string) : string :=
  match fuel with
  | O => acc
  | S f =>
      let acc' := String (Ascii.ascii_of_nat (48 + Z.to_nat (n mod 10))) acc in
      if n <? 10 then acc' else dec_digits f (n / 10) acc'
  end.

Definition str_Z (n : Z) : string :=
  if n <? 0
  then ("-" ++ dec_digits (S (Z.to_nat (Z.log2 (- n)))) (- n) "")%string
  else dec_digits (S (Z.to_nat (Z.log2 n))) n "".

(** An f-string field: [None] prints as [None]. *)
Definition fmt_Z (v : option Z) : string :=
  match v with Some n => str_Z n | None => "None" end.

Definition fmt_str (v : option string) : string :=
  match v with Some x => x | None => "None" end.

(** [f"Student {self.id}: " + f"{self.name}, " + f"Grade{self.grade}"]. *)
Definition repr (s : Student) : string :=
  ("Student " ++ fmt_Z (id s) ++ ": " ++ fmt_str (name s) ++ ", " ++
   "Grade" ++ fmt_Z (grade s))%string.

(** *** The [__main__] block *)

(** The birthdays [datetime(1879, 3, 14)] and [datetime(1912, 6, 23)] as
    seconds since 1970-01-01. *)
Definition birthday_albert : datetime := -2865456000.
Definition birthday_alan : datetime := -1815350400.

Definition main_albert : Student :=
  new_Student (Some "Albert Einstein"%string) (Some "albert.einstein@zurich.edu"%string)
    (Some 6) (Some birthday_albert).

Definition main_alan : Student :=
  new_Student (Some "Alan Turing"%string) (Some "alan.turing@sherborne.edu"%string)
    (Some 11) (Some birthday_alan).

(** Lines 80-83: [add]/[commit] of Albert Einstein, then of Alan Turing, in a
    fresh in-memory database; the class was defined at time [t0], and the
    engine's random rowid candidates are [draws]. *)
Definition main_after_inserts (t0 : datetime) (draws : list Student -> list Z)
    : Session * result (list Student) * result (list Student) :=
  let '(s1, r1) := commit (define_Student t0 draws) (add empty_session main_albert) in
  let '(s2, r2) := commit (define_Student t0 draws) (add s1 main_alan) in
  (s2, r1, r2).

Definition main_s2 (t0 : datetime) (draws : list Student -> list Z) : Session :=
  fst (fst (main_after_inserts t0 draws)).

(** Line 140: the bulk update, in the open transaction. *)
Definition main_s3 (t0 : datetime) (draws : list Student -> list Z) : Session :=
  fst (update_grade_inc (define_Student t0 draws) (main_s2 t0 draws)).

(** Lines 147-154: [query.first()] by name, [session.delete] of it, commit. *)
Definition main_query_albert (t0 : datetime) (draws : list Student -> list Z)
    : option Student :=
  first (query_filter (name_eq "Albert Einstein"%string) (main_s3 t0 draws)).

Definition main_s4 (t0 : datetime) (draws : list Student -> list Z) : option Session :=
  match main_query_albert t0 draws with
  | Some o =>
      match delete (main_s3 t0 draws) o with
      | Some s => Some (fst (commit (define_Student t0 draws) s))
      | None => None
      end
  | None => None
  end.

(** The session after the script's two inserts, committed together. *)
Definition script_session_after : Session :=
  fst (commit (define_Student 0 no_draws)
         (add (add empty_session albert_einstein) alan_turing)).

(** The largest stored id, 0 for a table with none. *)
Definition id_base (rs : list Student) : Z :=
  match largest_id rs with Some m => m | None => 0 end.


(** ** Facts about the operations, and the claims *)

Lemma has_id_true : forall k r, has_id k r = true -> id r = Some k.
Proof.
  intros k r H. unfold has_id in H. destruct (id r); [ | discriminate ].
  apply Z.eqb_eq in H. subst. reflexivity.
Qed.

Lemma delete_rows_nil : forall rs, delete_rows [] rs = rs.
Proof.
  induction rs as [|r rs IH]; [ reflexivity | ]. unfold delete_rows in *. simpl.
  f_equal. exact IH.
Qed.

Lemma insert_row_email : forall t rs o r,
  insert_row t rs o = Ok r -> email r = email o.
Proof.
  intros t rs o r H. unfold insert_row, apply_defaults in H.
  destruct (enrolled_date o); simpl in H;
  repeat match goal with
  | H : context [if ?b then _ else _] |- _ => destruct b
  | H : context [match ?x with Some _ => _ | None => _ end] |- _ => destruct x
  | H : context [match ?x with Ok _ => _ | Err _ => _ end] |- _ => destruct x
  end; try discriminate; injection H as <-; reflexivity.
Qed.

Lemma insert_row_taken : forall t rs o,
  email_taken (email o) rs = true -> exists err, insert_row t rs o = Err err.
Proof.
  intros t rs o Ht. unfold insert_row.
  assert (E : email (apply_defaults t o) = email o)
    by (unfold apply_defaults; destruct (enrolled_date o); reflexivity).
  rewrite E, Ht.
  destruct (negb _); [eexists; reflexivity | ].
  destruct (id _); [ destruct (id_taken _ _) | destruct (next_rowid t rs) ];
  eexists; reflexivity.
Qed.

Lemma email_taken_app : forall e rs rs',
  email_taken e rs = true -> email_taken e (rs ++ rs') = true.
Proof.
  intros [e|] rs rs' H; [ | discriminate ].
  simpl in *. rewrite existsb_app, H. reflexivity.
Qed.

Lemma email_taken_In : forall e r rs,
  In r rs -> email r = Some e -> email_taken (Some e) rs = true.
Proof.
  intros e r rs Hin He. simpl. apply existsb_exists.
  exists r. split; [ exact Hin | rewrite He; apply String.eqb_refl ].
Qed.

(** A staged object whose non-NULL email is already in the table makes the
    INSERTs fail. *)
Lemma insert_all_taken : forall t objs rs o,
  In o objs -> email_taken (email o) rs = true ->
  exists err, insert_all t rs objs = Err err.
Proof.
  intros t objs. induction objs as [|o' os IH]; intros rs o Hin Ht.
  - destruct Hin.
  - simpl. destruct Hin as [-> | Hin].
    + destruct (insert_row_taken t rs o Ht) as [err ->]. eauto.
    + destruct (insert_row t rs o') as [r|err]; [ | eauto ].
      destruct (IH (rs ++ [r]) o Hin (email_taken_app _ _ _ Ht)) as [err ->].
      eauto.
Qed.

(** Two staged objects with the same non-NULL email: the INSERTs fail. *)
Lemma insert_all_dup : forall t rs pre o1 post o2 e,
  email o1 = Some e -> email o2 = Some e -> In o2 post ->
  exists err, insert_all t rs (pre ++ o1 :: post) = Err err.
Proof.
  intros t rs pre. revert rs. induction pre as [|p pre IH];
  intros rs o1 post o2 e H1 H2 Hin.
  - simpl. destruct (insert_row t rs o1) as [r|err] eqn:Hr; [ | eauto ].
    assert (Ht : email_taken (email o2) (rs ++ [r]) = true).
    { rewrite H2. apply (email_taken_In e r).
      - apply in_or_app. right. left. reflexivity.
      - rewrite (insert_row_email _ _ _ _ Hr). exact H1. }
    destruct (insert_all_taken t post (rs ++ [r]) o2 Hin Ht) as [err ->].
    eauto.
  - simpl. destruct (insert_row t rs p) as [r|err]; [ | eauto ].
    destruct (IH (rs ++ [r]) o1 post o2 e H1 H2 Hin) as [err ->]. eauto.
Qed.

Lemma next_rowid_err : forall t rs e, next_rowid t rs = Err e -> e = RowidFull.
Proof.
  intros t rs e H. unfold next_rowid in H.
  destruct (largest_id rs); [ destruct (_ <? _); [ | destruct (find _ _) ] | ];
    congruence.
Qed.

(** A flush raises constraint and engine errors, never PendingRollbackError. *)
Lemma insert_row_err : forall t rs o e,
  insert_row t rs o = Err e -> e <> PendingRollbackError.
Proof.
  intros t rs o e H. unfold insert_row in H.
  destruct (negb _); [ injection H as <-; discriminate | ].
  destruct (id _) as [k|].
  - destruct (id_taken k rs); [ injection H as <-; discriminate | ].
    destruct (email_taken _ _); [ injection H as <-; discriminate | discriminate ].
  - destruct (next_rowid t rs) as [k|e'] eqn:Hn.
    + destruct (email_taken _ _); [ injection H as <-; discriminate | discriminate ].
    + injection H as <-. rewrite (next_rowid_err _ _ _ Hn). discriminate.
Qed.

Lemma insert_all_err : forall t objs rs e,
  insert_all t rs objs = Err e -> e <> PendingRollbackError.
Proof.
  intros t objs. induction objs as [|o os IH]; intros rs e H; simpl in H;
    [ discriminate | ].
  destruct (insert_row t rs o) as [r|e'] eqn:Hr;
    [ | injection H as <-; exact (insert_row_err _ _ _ _ Hr) ].
  destruct (insert_all t (rs ++ [r]) os) as [[rs1 ps1]|e'] eqn:Hrest; [ discriminate | ].
  injection H as <-. exact (IH _ _ Hrest).
Qed.

Lemma switch_row_err : forall rs k o e,
  switch_row rs k o = Err e -> e <> PendingRollbackError.
Proof.
  intros rs k o e H. unfold switch_row in H.
  destruct (negb (id_taken k rs)); [ injection H as <-; discriminate | ].
  destruct (negb (grade_check (grade o))); [ injection H as <-; discriminate | ].
  destruct (email_taken _ _); [ injection H as <-; discriminate | discriminate ].
Qed.

Lemma keep_insert_ok : forall o x rs dels ins,
  keep_insert o x = Ok (rs, dels, ins) ->
  exists ins', x = Ok (rs, dels, ins') /\ ins = o :: ins'.
Proof.
  intros o [[[rs0 d0] i0]|e] rs dels ins H; simpl in H; [ | discriminate ].
  injection H as <- <- <-. eexists. split; reflexivity.
Qed.

Lemma keep_insert_err : forall o x e,
  keep_insert o x = Err e -> x = Err e.
Proof.
  intros o [[[rs0 d0] i0]|e'] e H; simpl in H; [ discriminate | congruence ].
Qed.

(** One step of [switch_all], by cases on the first object. *)
Lemma switch_all_cons : forall rs dels o os,
  switch_all rs dels (o :: os) =
  match id o with
  | Some k =>
      if existsb (Z.eqb k) dels then
        match switch_row rs k o with
        | Err e => Err e
        | Ok rs1 => switch_all rs1 (filter (fun k' => negb (k' =? k)) dels) os
        end
      else keep_insert o (switch_all rs dels os)
  | None => keep_insert o (switch_all rs dels os)
  end.
Proof. reflexivity. Qed.

Lemma switch_all_err : forall objs rs dels e,
  switch_all rs dels objs = Err e -> e <> PendingRollbackError.
Proof.
  induction objs as [|o os IH]; intros rs dels e H; [ discriminate | ].
  rewrite switch_all_cons in H.
  destruct (id o) as [k|].
  - destruct (existsb (Z.eqb k) dels).
    + destruct (switch_row rs k o) as [rs1|e'] eqn:Hs.
      * exact (IH _ _ _ H).
      * injection H as <-. exact (switch_row_err _ _ _ _ Hs).
    + exact (IH _ _ _ (keep_insert_err _ _ _ H)).
  - exact (IH _ _ _ (keep_insert_err _ _ _ H)).
Qed.

Lemma flush_err : forall t s e, flush t s = Err e -> e <> PendingRollbackError.
Proof.
  intros t s e H. unfold flush in H.
  destruct (switch_all (rows s) (deleted s) (new s)) as [[[rs1 dels] ins]|e'] eqn:Hs;
    [ | injection H as <-; exact (switch_all_err _ _ _ _ Hs) ].
  destruct (insert_all t rs1 ins) as [[rs2 ps]|e'] eqn:Hi; [ discriminate | ].
  injection H as <-. exact (insert_all_err _ _ _ _ Hi).
Qed.

(** A commit whose flush fails rolls back. *)
Lemma flush_err_rolled_back : forall t s e,
  inactive s = false -> flush t s = Err e -> rolled_back t s (commit t s).
Proof.
  intros t s e Ha H.
  assert (Hc : commit t s = (after_flush_error s, Err e))
    by (unfold commit; rewrite Ha, H; reflexivity).
  rewrite Hc. unfold rolled_back. simpl.
  split; [ exists e; split; [ exact (flush_err _ _ _ H) | reflexivity ] | ].
  repeat split.
Qed.

(** Without row switches, [switch_all] passes every object on to the
    INSERTs and leaves the table and the deletions as they are. *)
Lemma switch_all_none : forall objs rs dels,
  forallb (fun o => negb (reuses_deleted_id dels o)) objs = true ->
  switch_all rs dels objs = Ok (rs, dels, objs).
Proof.
  induction objs as [|o os IH]; intros rs dels H; [ reflexivity | ].
  simpl in H. apply andb_prop in H as [Ho Hos].
  rewrite switch_all_cons. unfold reuses_deleted_id in Ho.
  destruct (id o) as [k|].
  - apply negb_true_iff in Ho. rewrite Ho, (IH rs dels Hos). reflexivity.
  - rewrite (IH rs dels Hos). reflexivity.
Qed.

Lemma no_switch_nil : forall objs,
  forallb (fun o => negb (reuses_deleted_id [] o)) objs = true.
Proof.
  induction objs as [|o os IH]; [ reflexivity | ]. simpl. rewrite IH.
  unfold reuses_deleted_id. destruct (id o); reflexivity.
Qed.

Lemma no_switch_of_none : forall dels objs,
  Forall (fun o => id o = None) objs ->
  forallb (fun o => negb (reuses_deleted_id dels o)) objs = true.
Proof.
  intros dels objs H. induction H as [|o os Ho _ IH]; [ reflexivity | ].
  simpl. rewrite IH. unfold reuses_deleted_id. rewrite Ho. reflexivity.
Qed.

Lemma flush_no_switch_err : forall t s e,
  no_row_switch s (new s) = true -> insert_all t (rows s) (new s) = Err e ->
  flush t s = Err e.
Proof.
  intros t s e Hns Hi. unfold flush.
  rewrite (switch_all_none _ _ _ Hns), Hi. reflexivity.
Qed.

(** What a successful commit did. *)
Lemma commit_ok_inv : forall t s s' ps,
  commit t s = (s', Ok ps) ->
  inactive s = false /\
  exists rs1 dels ins rs2,
    switch_all (rows s) (deleted s) (new s) = Ok (rs1, dels, ins) /\
    insert_all t rs1 ins = Ok (rs2, ps) /\
    s' = mkSession (delete_rows dels rs2) [] [].
Proof.
  intros t s s' ps H. unfold commit in H.
  destruct (inactive s); [ discriminate | ]. unfold flush in H.
  destruct (switch_all (rows s) (deleted s) (new s)) as [[[rs1 dels] ins]|e] eqn:Hs;
    [ | discriminate ].
  destruct (insert_all t rs1 ins) as [[rs2 ps']|e] eqn:Hi; [ | discriminate ].
  injection H as <- <-. split; [ reflexivity | ].
  exists rs1, dels, ins, rs2. repeat split; assumption.
Qed.

(** C1 (counterexample): two students whose email is unset (NULL) have the
    same email, yet committing the second succeeds: the unique constraint
    never compares NULLs. *)
Lemma C1_null_emails_coexist : ~ C1_as_worded.
Proof.
  intro H.
  set (t := define_Student 0 no_draws).
  set (s := fst (commit t (add empty_session albert_no_email))).
  destruct (H t s (set_enrolled_date (set_id albert_no_email 1) (Some 0))
              alan_no_email eq_refl) as [err Herr].
  - vm_compute. left. reflexivity.
  - vm_compute in Herr. discriminate.
Qed.

(** C1 (amended): on an active session, for two students with the same
    non-NULL email, committing the second is INSERTing a duplicate email
    (when no object of the commit takes over the id of a row whose deletion
    is staged, which SQLAlchemy would write as an UPDATE), both when the
    first is already stored and when both are staged for the same commit.
    That commit fails with a constraint error, and the whole transaction is
    rolled back: the table holds its committed rows again, the session
    refuses further commits until [rollback()], and after it the table has
    exactly the rows of the last commit and nothing is staged. *)
Theorem C1_duplicate_email_commit_fails : forall t s o1 o2 e,
  inactive s = false -> email o1 = Some e -> email o2 = Some e ->
  (In o1 (rows s) -> no_row_switch s (new s ++ [o2]) = true ->
   rolled_back t s (commit t (add s o2))) /\
  (no_row_switch s (new s ++ [o1; o2]) = true ->
   rolled_back t s (commit t (add (add s o1) o2))).
Proof.
  intros t s o1 o2 e Ha H1 H2. split.
  - intros Hin Hns.
    assert (Ht : email_taken (email o2) (rows s) = true)
      by (rewrite H2; exact (email_taken_In e o1 _ Hin H1)).
    assert (Hin2 : In o2 (new s ++ [o2]))
      by (apply in_or_app; right; left; reflexivity).
    destruct (insert_all_taken t _ (rows s) o2 Hin2 Ht) as [err Herr].
    exact (flush_err_rolled_back t (add s o2) err Ha
             (flush_no_switch_err t (add s o2) err Hns Herr)).
  - intro Hns.
    destruct (insert_all_dup t (rows s) (new s) o1 [o2] o2 e H1 H2
                (or_introl eq_refl)) as [err Herr].
    apply (flush_err_rolled_back t (add (add s o1) o2) err Ha).
    apply flush_no_switch_err.
    + change (no_row_switch s ((new s ++ [o1]) ++ [o2]) = true).
      rewrite <- app_assoc. exact Hns.
    + change (insert_all t (rows s) ((new s ++ [o1]) ++ [o2]) = Err err).
      rewrite <- app_assoc. exact Herr.
Qed.

(** Albert Einstein is stored; Mileva Maric, given his email, is added and
    committed; and both staged together in a fresh session. *)
Lemma C1_duplicate_email_commit_fails_witness :
  rolled_back (define_Student 0 no_draws) script_session_after
    (commit (define_Student 0 no_draws) (add script_session_after mileva_maric)) /\
  rolled_back (define_Student 0 no_draws) empty_session
    (commit (define_Student 0 no_draws)
       (add (add empty_session albert_einstein) mileva_maric)).
Proof.
  split.
  - apply (proj1 (C1_duplicate_email_commit_fails (define_Student 0 no_draws)
                    script_session_after stored_albert mileva_maric
                    "albert.einstein@zurich.edu"%string eq_refl eq_refl eq_refl)).
    + vm_compute. left. reflexivity.
    + vm_compute. reflexivity.
  - exact (proj2 (C1_duplicate_email_commit_fails (define_Student 0 no_draws)
                    empty_session albert_einstein mileva_maric
                    "albert.einstein@zurich.edu"%string eq_refl eq_refl eq_refl) eq_refl).
Defined.

Lemma apply_defaults_fields : forall t o,
  id (apply_defaults t o) = id o /\ name (apply_defaults t o) = name o /\
  email (apply_defaults t o) = email o /\ grade (apply_defaults t o) = grade o.
Proof.
  intros t o. unfold apply_defaults. destruct (enrolled_date o); repeat split.
Qed.

Lemma insert_row_bad_grade : forall t rs o,
  grade_check (grade o) = false -> insert_row t rs o = Err GradeCheckViolation.
Proof.
  intros t rs o H. unfold insert_row.
  destruct (apply_defaults_fields t o) as (_ & _ & _ & ->). rewrite H. reflexivity.
Qed.

Lemma insert_all_bad_grade : forall t objs rs o,
  In o objs -> grade_check (grade o) = false ->
  exists err, insert_all t rs objs = Err err.
Proof.
  intros t objs. induction objs as [|o' os IH]; intros rs o Hin Hg.
  - destruct Hin.
  - simpl. destruct Hin as [-> | Hin].
    + rewrite (insert_row_bad_grade t rs o Hg). eauto.
    + destruct (insert_row t rs o') as [r|err]; [ | eauto ].
      destruct (IH (rs ++ [r]) o Hin Hg) as [err ->]. eauto.
Qed.

Lemma switch_row_bad_grade : forall rs k o,
  grade_check (grade o) = false -> exists err, switch_row rs k o = Err err.
Proof.
  intros rs k o H. unfold switch_row. rewrite H.
  destruct (negb (id_taken k rs)); eexists; reflexivity.
Qed.

(** An object with a rejected grade is never switched into an UPDATE without
    an error: it either stops [switch_all] or is passed on to the INSERTs. *)
Lemma switch_all_bad_grade : forall objs rs dels rs1 dels1 ins o,
  switch_all rs dels objs = Ok (rs1, dels1, ins) -> In o objs ->
  grade_check (grade o) = false -> In o ins.
Proof.
  induction objs as [|x os IH]; intros rs dels rs1 dels1 ins o H Hin Hg;
    [ destruct Hin | ].
  rewrite switch_all_cons in H.
  destruct Hin as [-> | Hin].
  - destruct (id o) as [k|].
    + destruct (existsb (Z.eqb k) dels).
      * destruct (switch_row_bad_grade rs k o Hg) as [err Herr].
        rewrite Herr in H. discriminate.
      * apply keep_insert_ok in H as (ins' & _ & ->). left. reflexivity.
    + apply keep_insert_ok in H as (ins' & _ & ->). left. reflexivity.
  - destruct (id x) as [k|].
    + destruct (existsb (Z.eqb k) dels).
      * destruct (switch_row rs k x) as [rs2|err]; [ | discriminate ].
        exact (IH _ _ _ _ _ o H Hin Hg).
      * apply keep_insert_ok in H as (ins' & H & ->). right.
        exact (IH _ _ _ _ _ o H Hin Hg).
    + apply keep_insert_ok in H as (ins' & H & ->). right.
      exact (IH _ _ _ _ _ o H Hin Hg).
Qed.

Lemma flush_bad_grade : forall t s o,
  In o (new s) -> grade_check (grade o) = false -> exists err, flush t s = Err err.
Proof.
  intros t s o Hin Hg. unfold flush.
  destruct (switch_all (rows s) (deleted s) (new s)) as [[[rs1 dels] ins]|err] eqn:Hs;
    [ | eauto ].
  pose proof (switch_all_bad_grade _ _ _ _ _ _ _ Hs Hin Hg) as Hins.
  destruct (insert_all_bad_grade t ins rs1 o Hins Hg) as [err ->]. eauto.
Qed.

Lemma insert_row_fresh : forall t rs o k,
  id o = None -> grade_check (grade o) = true ->
  email_taken (email o) rs = false -> next_rowid t rs = Ok k ->
  insert_row t rs o = Ok (set_id (apply_defaults t o) k).
Proof.
  intros t rs o k Hid Hg He Hk. unfold insert_row.
  destruct (apply_defaults_fields t o) as (-> & _ & -> & ->).
  rewrite Hg, Hid, Hk, He. reflexivity.
Qed.

(** A single staged student with no id, an accepted grade and a free email
    is committed by an active session, with the next rowid. *)
Lemma commit_single_ok : forall t s o k,
  inactive s = false -> new s = [] -> id o = None -> grade_check (grade o) = true ->
  email_taken (email o) (rows s) = false -> next_rowid t (rows s) = Ok k ->
  commit t (add s o) =
    (mkSession (delete_rows (deleted s) (rows s ++ [set_id (apply_defaults t o) k])) [] [],
     Ok [set_id (apply_defaults t o) k]).
Proof.
  intros t s o k Ha Hn Hid Hg He Hk. unfold commit, flush, add. simpl.
  rewrite Ha, Hn. simpl. rewrite Hid. simpl.
  rewrite (insert_row_fresh t (rows s) o k Hid Hg He Hk). reflexivity.
Qed.

(** C2: on an active session, a student whose grade is an integer outside
    1..12 makes the commit fail with a constraint error, and the whole
    transaction is rolled back: the table holds its committed rows again and
    the session refuses further commits until [rollback()]. A grade inside
    1..12 never triggers the grade check, neither in an INSERT nor in the
    UPDATE of a row switch. *)
Theorem C2_grade_out_of_range_rejected : forall t s o g,
  grade o = Some g ->
  (~ (1 <= g <= 12) -> inactive s = false -> rolled_back t s (commit t (add s o))) /\
  (1 <= g <= 12 ->
   (forall rs, insert_row t rs o <> Err GradeCheckViolation) /\
   (forall rs k, switch_row rs k o <> Err GradeCheckViolation)).
Proof.
  intros t s o g Hg. split.
  - intros Hout Ha.
    assert (Hc : grade_check (grade o) = false).
    { rewrite Hg. simpl. destruct (1 <=? g) eqn:A; destruct (g <=? 12) eqn:B;
      try reflexivity. apply Z.leb_le in A. apply Z.leb_le in B. lia. }
    assert (Hin : In o (new (add s o)))
      by (simpl; apply in_or_app; right; left; reflexivity).
    destruct (flush_bad_grade t (add s o) o Hin Hc) as [err Herr].
    exact (flush_err_rolled_back t (add s o) err Ha Herr).
  - intro Hr.
    assert (Hc : grade_check (Some g) = true)
      by (simpl; apply andb_true_intro; split; apply Z.leb_le; lia).
    split.
    + intro rs. unfold insert_row.
      destruct (apply_defaults_fields t o) as (-> & _ & _ & ->). rewrite Hg, Hc. simpl.
      destruct (id o).
      * destruct (id_taken _ _); [ discriminate | ].
        destruct (email_taken _ _); discriminate.
      * destruct (next_rowid t rs) eqn:Hn.
        -- destruct (email_taken _ _); discriminate.
        -- rewrite (next_rowid_err _ _ _ Hn). discriminate.
    + intros rs k. unfold switch_row. rewrite Hg, Hc. simpl.
      destruct (negb (id_taken k rs)); [ discriminate | ].
      destruct (email_taken _ _); discriminate.
Qed.

Lemma C2_grade_out_of_range_rejected_witness :
  rolled_back (define_Student 0 no_draws) empty_session
    (commit (define_Student 0 no_draws)
       (add empty_session (set_grade albert_einstein (Some 13)))) /\
  ((forall rs, insert_row (define_Student 0 no_draws) rs albert_einstein
               <> Err GradeCheckViolation) /\
   (forall rs k, switch_row rs k albert_einstein <> Err GradeCheckViolation)).
Proof.
  split.
  - exact (proj1 (C2_grade_out_of_range_rejected (define_Student 0 no_draws) empty_session
                    (set_grade albert_einstein (Some 13)) 13 eq_refl) ltac:(lia) eq_refl).
  - exact (proj2 (C2_grade_out_of_range_rejected (define_Student 0 no_draws) empty_session
                    albert_einstein 6 eq_refl) ltac:(lia)).
Defined.

(** C9 (counterexample): a student with a 56-character email is committed
    into the empty table; [String(55)] is not enforced. *)
Lemma C9_long_email_committed : ~ C9_as_worded.
Proof.
  intro H.
  destruct (H (define_Student 0 no_draws) empty_session albert_long_email long_email
              eq_refl ltac:(vm_compute; lia)) as [err Herr].
  vm_compute in Herr. discriminate.
Qed.

(** C9 (amended): the length of the email is not checked. On an active
    session with nothing else staged, a student with no explicit id, an
    accepted grade and an email [e] not yet stored, for which a rowid is
    available, is committed with the email [e] as given, whatever the length
    of [e]. *)
Theorem C9_email_length_not_enforced : forall t s o e k,
  inactive s = false -> new s = [] -> id o = None -> grade_check (grade o) = true ->
  email o = Some e -> email_taken (Some e) (rows s) = false ->
  next_rowid t (rows s) = Ok k ->
  exists r, commit t (add s o) =
              (mkSession (delete_rows (deleted s) (rows s ++ [r])) [] [], Ok [r]) /\
            email r = Some e.
Proof.
  intros t s o e k Ha Hn Hid Hg He Hfree Hk.
  rewrite <- He in Hfree.
  exists (set_id (apply_defaults t o) k). split.
  - exact (commit_single_ok t s o k Ha Hn Hid Hg Hfree Hk).
  - simpl. destruct (apply_defaults_fields t o) as (_ & _ & -> & _). exact He.
Qed.

Lemma C9_email_length_not_enforced_witness :
  (55 < String.length long_email)%nat /\
  exists r, commit (define_Student 0 no_draws) (add empty_session albert_long_email) =
              (mkSession (delete_rows [] ([] ++ [r])) [] [], Ok [r]) /\
            email r = Some long_email.
Proof.
  split; [ vm_compute; lia | ].
  exact (C9_email_length_not_enforced (define_Student 0 no_draws) empty_session
           albert_long_email long_email 1 eq_refl eq_refl eq_refl eq_refl
           eq_refl eq_refl eq_refl).
Defined.

(** C10: a student with no grade (NULL) passes the grade check: staged alone
    on an active session, with no explicit id, an email not yet stored and a
    rowid available, it is committed, and it is stored with a NULL grade. *)
Theorem C10_null_grade_commits : forall t s o k,
  grade o = None -> inactive s = false -> new s = [] -> id o = None ->
  email_taken (email o) (rows s) = false -> next_rowid t (rows s) = Ok k ->
  exists r, commit t (add s o) =
              (mkSession (delete_rows (deleted s) (rows s ++ [r])) [] [], Ok [r]) /\
            grade r = None.
Proof.
  intros t s o k Hg Ha Hn Hid Hfree Hk.
  assert (Hc : grade_check (grade o) = true) by (rewrite Hg; reflexivity).
  exists (set_id (apply_defaults t o) k). split.
  - exact (commit_single_ok t s o k Ha Hn Hid Hc Hfree Hk).
  - simpl. destruct (apply_defaults_fields t o) as (_ & _ & _ & ->). exact Hg.
Qed.

Lemma C10_null_grade_commits_witness :
  exists r, commit (define_Student 0 no_draws)
              (add empty_session (set_grade albert_einstein None)) =
            (mkSession (delete_rows [] ([] ++ [r])) [] [], Ok [r]) /\ grade r = None.
Proof.
  exact (C10_null_grade_commits (define_Student 0 no_draws) empty_session
           (set_grade albert_einstein None) 1 eq_refl eq_refl eq_refl eq_refl
           eq_refl eq_refl).
Defined.

Lemma insert_row_date : forall t rs o r,
  enrolled_date o = None -> insert_row t rs o = Ok r ->
  enrolled_date r = Some (enrolled_date_default t).
Proof.
  intros t rs o r Hd H. unfold insert_row, apply_defaults in H.
  rewrite Hd in H. simpl in H.
  repeat match goal with
  | H : context [if ?b then _ else _] |- _ => destruct b
  | H : context [match ?x with Some _ => _ | None => _ end] |- _ => destruct x
  | H : context [match ?x with Ok _ => _ | Err _ => _ end] |- _ => destruct x
  end; try discriminate; injection H as <-; reflexivity.
Qed.

Lemma insert_all_dates : forall t objs rs rs' ps,
  Forall (fun o => enrolled_date o = None) objs ->
  insert_all t rs objs = Ok (rs', ps) ->
  Forall (fun p => enrolled_date p = Some (enrolled_date_default t)) ps.
Proof.
  intros t objs. induction objs as [|o os IH]; intros rs rs' ps Hall H; simpl in H.
  - injection H as _ <-. constructor.
  - inversion Hall as [|? ? Ho Hos]; subst.
    destruct (insert_row t rs o) as [r|e] eqn:Hr; [ | discriminate ].
    destruct (insert_all t (rs ++ [r]) os) as [[rs1 ps1]|e] eqn:Hrest; [ | discriminate ].
    injection H as _ <-. constructor.
    + exact (insert_row_date t rs o r Ho Hr).
    + exact (IH _ _ _ Hos Hrest).
Qed.

(** The objects [switch_all] passes on to the INSERTs are staged ones. *)
Lemma switch_all_ins_incl : forall objs rs dels rs1 dels1 ins,
  switch_all rs dels objs = Ok (rs1, dels1, ins) -> incl ins objs.
Proof.
  induction objs as [|x os IH]; intros rs dels rs1 dels1 ins H.
  - simpl in H. injection H as _ _ <-. apply incl_refl.
  - rewrite switch_all_cons in H.
    destruct (id x) as [k|].
    + destruct (existsb (Z.eqb k) dels).
      * destruct (switch_row rs k x) as [rs2|err]; [ | discriminate ].
        apply incl_tl. exact (IH _ _ _ _ _ H).
      * apply keep_insert_ok in H as (ins' & H & ->).
        apply incl_cons; [ left; reflexivity | apply incl_tl; exact (IH _ _ _ _ _ H) ].
    + apply keep_insert_ok in H as (ins' & H & ->).
      apply incl_cons; [ left; reflexivity | apply incl_tl; exact (IH _ _ _ _ _ H) ].
Qed.

(** C3 (the code at the failing input): every student committed without an
    explicit [enrolled_date] is stored with the time at which the class
    [Student] was defined, [now_at_class_definition], the single value of
    [datetime.now()] taken when the class body ran. The constructor
    [new_Student] does not read the clock, so the moment a record is
    constructed never reaches the stored value: students constructed at
    different moments receive the same default. *)
Theorem C3_enrolled_date_is_class_definition_time :
  forall now_at_class_definition draws s s' ps,
  Forall (fun o => enrolled_date o = None) (new s) ->
  commit (define_Student now_at_class_definition draws) s = (s', Ok ps) ->
  Forall (fun p => enrolled_date p = Some now_at_class_definition) ps.
Proof.
  intros t0 draws s s' ps Hall H.
  destruct (commit_ok_inv _ _ _ _ H) as (_ & rs1 & dels & ins & rs2 & Hs & Hi & _).
  apply (insert_all_dates (define_Student t0 draws) ins rs1 rs2 ps); [ | exact Hi ].
  exact (incl_Forall (switch_all_ins_incl _ _ _ _ _ _ Hs) Hall).
Qed.

(** The script: the class is defined at time 0; Albert Einstein and Alan
    Turing are constructed later, one after the other, and committed; both
    are stored with [enrolled_date = 0]. *)
Lemma C3_enrolled_date_is_class_definition_time_witness :
  Forall (fun p => enrolled_date p = Some 0)
    (match snd (commit (define_Student 0 no_draws)
                 (add (add empty_session albert_einstein) alan_turing)) with
     | Ok ps => ps
     | Err _ => []
     end) /\
  (match snd (commit (define_Student 0 no_draws)
                (add (add empty_session albert_einstein) alan_turing)) with
   | Ok ps => List.length ps
   | Err _ => 0%nat
   end) = 2%nat.
Proof.
  split; [ | vm_compute; reflexivity ].
  apply (C3_enrolled_date_is_class_definition_time 0 no_draws
           (add (add empty_session albert_einstein) alan_turing)
           (fst (commit (define_Student 0 no_draws)
                   (add (add empty_session albert_einstein) alan_turing)))).
  - repeat constructor.
  - vm_compute. reflexivity.
Defined.
Lemma grade_le_refl : forall a, grade_le a a = true.
Proof. intros [x|]; simpl; [ apply Z.leb_refl | reflexivity ]. Qed.

Lemma grade_le_trans : forall a b c,
  grade_le a b = true -> grade_le b c = true -> grade_le a c = true.
Proof.
  intros [x|] [y|] [z|]; simpl; try discriminate; try reflexivity.
  rewrite !Z.leb_le. lia.
Qed.

(** C4: over a non-empty table, whatever order the engine picks among rows
    of equal grade, [order_by(desc(Student.grade)).limit(1)] returns exactly
    one stored row, and its grade is at least the grade of every stored row:
    in SQL order (NULL lowest), and as integers: when some row has an integer
    grade [g'], the returned row has an integer grade [g >= g']. *)
Theorem C4_order_by_grade_desc_limit_1 : forall (s : Session) (l : list Student),
  rows s <> [] -> order_by_grade_desc (rows s) l ->
  exists top, limit 1 l = [top] /\ In top (rows s) /\
    (forall r, In r (rows s) -> grade_le (grade r) (grade top) = true) /\
    (forall r g', In r (rows s) -> grade r = Some g' ->
       exists g, grade top = Some g /\ g' <= g).
Proof.
  intros s l Hne [Hperm Hsorted].
  destruct l as [|top l'].
  - apply Permutation_sym, Permutation_nil in Hperm. contradiction.
  - apply Sorted_StronglySorted in Hsorted;
      [ | intros a b c Hab Hbc; exact (grade_le_trans _ _ _ Hbc Hab) ].
    inversion Hsorted as [|? ? _ Hall]; subst.
    assert (Hmax : forall r, In r (rows s) -> grade_le (grade r) (grade top) = true).
    { intros r Hr. apply (Permutation_in r Hperm) in Hr.
      destruct Hr as [<- | Hr]; [ apply grade_le_refl | ].
      rewrite Forall_forall in Hall. exact (Hall r Hr). }
    exists top. split; [ reflexivity | split; [ | split; [ exact Hmax | ] ] ].
    + apply (Permutation_in top (Permutation_sym Hperm)). left. reflexivity.
    + intros r g' Hr Hg. specialize (Hmax r Hr). rewrite Hg in Hmax.
      destruct (grade top) as [g|]; [ | discriminate ].
      exists g. split; [ reflexivity | apply Z.leb_le; exact Hmax ].
Qed.

Lemma C4_order_by_grade_desc_limit_1_witness :
  exists top, limit 1 (rev script_rows) = [top] /\ In top script_rows /\
    (forall r, In r script_rows -> grade_le (grade r) (grade top) = true) /\
    (forall r g', In r script_rows -> grade r = Some g' ->
       exists g, grade top = Some g /\ g' <= g).
Proof.
  apply (C4_order_by_grade_desc_limit_1
           (fst (commit (define_Student 0 no_draws)
                   (add (add empty_session albert_einstein) alan_turing)))
           (rev script_rows)).
  - vm_compute. discriminate.
  - split.
    + apply Permutation_rev.
    + vm_compute. repeat constructor.
Defined.


Lemma delete_rows_id_gone : forall ks rs k,
  In k ks -> filter (id_eq k) (delete_rows ks rs) = [].
Proof.
  intros ks rs k Hk. induction rs as [|r rs IH]; [ reflexivity | ].
  unfold delete_rows in *. simpl.
  destruct (existsb (fun k0 => has_id k0 r) ks) eqn:Hex; simpl; [ exact IH | ].
  destruct (id_eq k r) eqn:Hid; [ | exact IH ].
  exfalso. assert (Hin : existsb (fun k0 => has_id k0 r) ks = true)
    by (apply existsb_exists; exists k; split; [ exact Hk | exact Hid ]).
  congruence.
Qed.

Lemma delete_rows_name : forall k n rs,
  filter (name_eq n) (delete_rows [k] rs) =
  filter (fun r => negb (has_id k r)) (filter (name_eq n) rs).
Proof.
  intros k n rs. induction rs as [|r rs IH]; [ reflexivity | ].
  unfold delete_rows in *. simpl.
  destruct (has_id k r) eqn:E1, (name_eq n r) eqn:E2; simpl;
    rewrite ?E1, ?E2; simpl; try exact IH; f_equal; exact IH.
Qed.

(** A staged deletion of [k] is carried out by the flush unless a staged
    object with the id [k] takes over the row. *)
Lemma switch_all_keeps_del : forall objs rs dels rs1 dels1 ins k,
  switch_all rs dels objs = Ok (rs1, dels1, ins) -> In k dels ->
  Forall (fun x => id x <> Some k) objs -> In k dels1.
Proof.
  induction objs as [|o os IH]; intros rs dels rs1 dels1 ins k H Hk Hall.
  - simpl in H. injection H as _ <- _. exact Hk.
  - rewrite switch_all_cons in H.
    inversion Hall as [|? ? Ho Hos]; subst.
    destruct (id o) as [k'|] eqn:Hid.
    + destruct (existsb (Z.eqb k') dels).
      * destruct (switch_row rs k' o) as [rs2|e]; [ | discriminate ].
        apply (IH _ _ _ _ _ k H); [ | exact Hos ].
        apply filter_In. split; [ exact Hk | ].
        apply negb_true_iff, Z.eqb_neq. intro E. subst k'. congruence.
      * apply keep_insert_ok in H as (ins' & H & _). exact (IH _ _ _ _ _ k H Hk Hos).
    + apply keep_insert_ok in H as (ins' & H & _). exact (IH _ _ _ _ _ k H Hk Hos).
Qed.

(** C5 (counterexample): with two students called Albert Einstein, deleting
    the first and committing leaves the second, so the query by the deleted
    student's name is not empty. *)
Lemma C5_name_query_after_delete_not_empty : ~ C5_as_worded.
Proof.
  intro H.
  destruct (H (define_Student 0 no_draws) two_alberts
              (mkSession (rows two_alberts) [] [1])
              (fst (commit (define_Student 0 no_draws) (mkSession (rows two_alberts) [] [1])))
              stored_albert [])
    as [_ Hname].
  - vm_compute. left. reflexivity.
  - vm_compute. reflexivity.
  - vm_compute. reflexivity.
  - specialize (Hname "Albert Einstein"%string eq_refl).
    vm_compute in Hname. discriminate.
Qed.

(** C5 (amended): after [delete(student)] and a successful commit in which no
    staged object carries the deleted student's id [k], the query by [k] is
    empty and [first()] on it returns [None] (queries are total: no error).
    When the delete is the only change of the commit (nothing else staged,
    no other deletion), the query by a name returns the rows that had that
    name before, minus the deleted one: it is empty only when no other
    student shares the name. *)
Theorem C5_query_after_delete : forall t s s1 s' o k ps,
  id o = Some k -> delete s o = Some s1 -> commit t s1 = (s', Ok ps) ->
  Forall (fun x => id x <> Some k) (new s) ->
  query_filter (id_eq k) s' = [] /\
  first (query_filter (id_eq k) s') = None /\
  (new s = [] -> deleted s = [] -> forall n,
     query_filter (name_eq n) s' =
     filter (fun r => negb (has_id k r)) (query_filter (name_eq n) s)).
Proof.
  intros t s s1 s' o k ps Hid Hdel Hc Hnk.
  unfold delete in Hdel. rewrite Hid in Hdel. injection Hdel as <-.
  destruct (commit_ok_inv _ _ _ _ Hc) as (_ & rs1 & dels & ins & rs2 & Hs & Hi & ->).
  simpl in Hs.
  assert (Hk : In k dels).
  { apply (switch_all_keeps_del _ _ _ _ _ _ k Hs); [ | exact Hnk ].
    apply in_or_app. right. left. reflexivity. }
  assert (Hgone : query_filter (id_eq k) (mkSession (delete_rows dels rs2) [] []) = [])
    by (apply delete_rows_id_gone; exact Hk).
  split; [ exact Hgone | split; [ unfold first; rewrite Hgone; reflexivity | ] ].
  intros Hn Hd n. rewrite Hn, Hd in Hs. simpl in Hs. injection Hs as <- <- <-.
  simpl in Hi. injection Hi as <- _. apply delete_rows_name.
Qed.

Lemma C5_query_after_delete_witness :
  query_filter (id_eq 1)
    (fst (commit (define_Student 0 no_draws) (mkSession (rows two_alberts) [] [1]))) = [] /\
  first (query_filter (id_eq 1)
    (fst (commit (define_Student 0 no_draws) (mkSession (rows two_alberts) [] [1])))) = None /\
  (new two_alberts = [] -> deleted two_alberts = [] -> forall n,
     query_filter (name_eq n)
       (fst (commit (define_Student 0 no_draws) (mkSession (rows two_alberts) [] [1]))) =
     filter (fun r => negb (has_id 1 r)) (query_filter (name_eq n) two_alberts)).
Proof.
  apply (C5_query_after_delete (define_Student 0 no_draws) two_alberts
           (mkSession (rows two_alberts) [] [1]) _ stored_albert 1 []).
  - reflexivity.
  - vm_compute. reflexivity.
  - vm_compute. reflexivity.
  - vm_compute. constructor.
Defined.

Lemma apply_defaults_birthday : forall t o,
  birthday (apply_defaults t o) = birthday o.
Proof. intros t o. unfold apply_defaults. destruct (enrolled_date o); reflexivity. Qed.

Lemma insert_row_persisted : forall t rs o r,
  insert_row t rs o = Ok r -> persisted_as o r.
Proof.
  intros t rs o r H. unfold insert_row in H.
  destruct (apply_defaults_fields t o) as (Hi & Hn & He & Hg).
  pose proof (apply_defaults_birthday t o) as Hb.
  destruct (negb _); [ discriminate | ].
  destruct (id (apply_defaults t o)) as [k|] eqn:Hk.
  - destruct (id_taken k rs); [ discriminate | ].
    destruct (email_taken _ rs); [ discriminate | ].
    injection H as <-. exists k. repeat split; assumption.
  - destruct (next_rowid t rs) as [k|e]; [ | discriminate ].
    destruct (email_taken _ rs); [ discriminate | ].
    injection H as <-. exists k. simpl. repeat split; assumption.
Qed.

Lemma insert_all_persisted : forall t objs rs rs' ps,
  insert_all t rs objs = Ok (rs', ps) -> Forall2 persisted_as objs ps.
Proof.
  intros t objs. induction objs as [|o os IH]; intros rs rs' ps H; simpl in H.
  - injection H as _ <-. constructor.
  - destruct (insert_row t rs o) as [r|e] eqn:Hr; [ | discriminate ].
    destruct (insert_all t (rs ++ [r]) os) as [[rs1 ps1]|e] eqn:Hrest; [ | discriminate ].
    injection H as _ <-. constructor.
    + exact (insert_row_persisted t rs o r Hr).
    + exact (IH _ _ _ Hrest).
Qed.

(** The last staged object, when it has no id, is the last one INSERTed. *)
Lemma switch_all_last_none : forall objs o rs dels rs1 dels1 ins,
  id o = None -> switch_all rs dels (objs ++ [o]) = Ok (rs1, dels1, ins) ->
  exists ins0, ins = ins0 ++ [o].
Proof.
  induction objs as [|x os IH]; intros o rs dels rs1 dels1 ins Hid H.
  - simpl in H. rewrite Hid in H.
    injection H as _ _ <-. exists []. reflexivity.
  - rewrite <- app_comm_cons, switch_all_cons in H.
    destruct (id x) as [k|].
    + destruct (existsb (Z.eqb k) dels).
      * destruct (switch_row rs k x) as [rs2|e]; [ | discriminate ].
        exact (IH _ _ _ _ _ _ Hid H).
      * apply keep_insert_ok in H as (ins' & H & ->).
        destruct (IH _ _ _ _ _ _ Hid H) as (ins0 & ->).
        exists (x :: ins0). reflexivity.
    + apply keep_insert_ok in H as (ins' & H & ->).
      destruct (IH _ _ _ _ _ _ Hid H) as (ins0 & ->).
      exists (x :: ins0). reflexivity.
Qed.

(** C6: [session.add] stages the object itself, so right after it, and until
    the commit, the staged object is the constructed one, with no id. A
    successful commit returns, for the last staged object, a persisted
    version with an id; every object persisted by the commit has one. *)
Theorem C6_commit_assigns_id : forall t s o,
  id o = None ->
  (last (new (add s o)) o = o /\ id (last (new (add s o)) o) = None) /\
  (forall s' ps, commit t (add s o) = (s', Ok ps) ->
     Forall (fun p => exists k, id p = Some k) ps /\
     exists ps0 p k, ps = ps0 ++ [p] /\ id p = Some k /\
       name p = name o /\ email p = email o /\ grade p = grade o).
Proof.
  intros t s o Hid. split.
  - simpl. rewrite last_last. split; [ reflexivity | exact Hid ].
  - intros s' ps Hc.
    destruct (commit_ok_inv _ _ _ _ Hc) as (_ & rs1 & dels & ins & rs2 & Hs & Hi & _).
    pose proof (insert_all_persisted t _ _ _ _ Hi) as HF.
    split.
    + clear Hi Hs Hc. induction HF as [|x y xs ys Hxy _ IH]; [ constructor | ].
      constructor; [ | exact IH ]. destruct Hxy as (k & Hk & _). exists k. exact Hk.
    + simpl in Hs. destruct (switch_all_last_none (new s) o _ _ _ _ _ Hid Hs) as (ins0 & ->).
      apply Forall2_app_inv_l in HF as (ps0 & l2 & _ & Hl2 & ->).
      inversion Hl2 as [|? p ? ? Hop Hnil]; subst.
      inversion Hnil; subst.
      destruct Hop as (k & Hk & Hn & He & Hg & _).
      exists ps0, p, k. repeat split; assumption.
Qed.

Lemma C6_commit_assigns_id_witness :
  (last (new (add empty_session albert_einstein)) albert_einstein = albert_einstein /\
   id (last (new (add empty_session albert_einstein)) albert_einstein) = None) /\
  (forall s' ps, commit (define_Student 0 no_draws) (add empty_session albert_einstein)
                 = (s', Ok ps) ->
     Forall (fun p => exists k, id p = Some k) ps /\
     exists ps0 p k, ps = ps0 ++ [p] /\ id p = Some k /\
       name p = name albert_einstein /\ email p = email albert_einstein /\
       grade p = grade albert_einstein).
Proof.
  exact (C6_commit_assigns_id (define_Student 0 no_draws) empty_session albert_einstein
           eq_refl).
Defined.

(** C7 (counterexample): a stored student with a NULL grade. The update
    succeeds (NULL + 1 is NULL and passes the CHECK), and afterwards that
    student's grade is NULL, not an integer in 1..12. *)
Lemma C7_null_grade_survives_update : ~ C7_as_worded.
Proof.
  intro H.
  destruct (H (define_Student 0 no_draws) albert_no_grade_session)
    as [(n & _ & _ & Hall) | (err & Herr)].
  - vm_compute in Hall. inversion Hall as [|? ? (g & Hg & _) _]. discriminate.
  - vm_compute in Herr. discriminate.
Qed.

(** C7 (amended): [query(Student).update({Student.grade: Student.grade + 1})]
    first autoflushes the staged changes. On an inactive session it raises
    PendingRollbackError and changes nothing. When the autoflush fails, the
    error is raised and the transaction is rolled back: the table holds its
    committed rows again and the session is inactive. When the autoflush
    succeeds with the rows [rs], the UPDATE is atomic: either it succeeds,
    every row is the row of [rs] with its grade incremented (a NULL grade
    stays NULL) and every stored grade is NULL or in 1..12; or it fails with
    the grade check and the rows are [rs], unchanged by the UPDATE, with the
    session still active. *)
Theorem C7_update_grade_inc_atomic : forall (t : Table) (s : Session),
  (inactive s = true /\ update_grade_inc t s = (s, Err PendingRollbackError)) \/
  (inactive s = false /\
   exists e, flush t s = Err e /\ e <> PendingRollbackError /\
     snd (update_grade_inc t s) = Err e /\
     rows (fst (update_grade_inc t s)) = committed s /\
     inactive (fst (update_grade_inc t s)) = true) \/
  (inactive s = false /\
   exists rs ps, flush t s = Ok (rs, ps) /\
     ((exists n, snd (update_grade_inc t s) = Ok n /\
        rows (fst (update_grade_inc t s)) = map inc_grade rs /\
        (forall r, In r rs ->
           grade (inc_grade r) = option_map (fun g => g + 1) (grade r)) /\
        Forall (fun r => match grade r with
                         | Some g => 1 <= g <= 12
                         | None => True
                         end) (rows (fst (update_grade_inc t s)))) \/
      (snd (update_grade_inc t s) = Err GradeCheckViolation /\
       rows (fst (update_grade_inc t s)) = rs /\
       inactive (fst (update_grade_inc t s)) = false))).
Proof.
  intros t s. unfold update_grade_inc.
  destruct (inactive s) eqn:Ha; [ left; split; reflexivity | right ].
  destruct (flush t s) as [[rs ps]|e] eqn:Hf.
  - right. split; [ reflexivity | ]. exists rs, ps. split; [ reflexivity | ].
    destruct (forallb (fun r => grade_check (grade r)) (map inc_grade rs)) eqn:Hfa.
    + left. eexists. split; [ reflexivity | split; [ reflexivity | split ] ].
      * intros r _. reflexivity.
      * simpl. apply Forall_forall. intros r Hr.
        rewrite forallb_forall in Hfa. specialize (Hfa r Hr).
        destruct (grade r) as [g|]; [ | exact I ].
        simpl in Hfa. apply andb_prop in Hfa as [A B].
        apply Z.leb_le in A. apply Z.leb_le in B. lia.
    + right. repeat split.
  - left. split; [ reflexivity | ]. exists e.
    split; [ reflexivity | split; [ exact (flush_err _ _ _ Hf) | repeat split ] ].
Qed.

Lemma id_taken_false : forall k rs,
  id_taken k rs = false -> ~ In (Some k) (map id rs).
Proof.
  intros k rs H Hin. apply in_map_iff in Hin as (r & Hr & Hin).
  assert (existsb (has_id k) rs = true).
  { apply existsb_exists. exists r. split; [ exact Hin | ].
    unfold has_id. rewrite Hr. apply Z.eqb_refl. }
  unfold id_taken in H. congruence.
Qed.

Lemma largest_id_bound : forall rs r k,
  In r rs -> id r = Some k -> exists m, largest_id rs = Some m /\ k <= m.
Proof.
  induction rs as [|r0 rs IH]; intros r k Hin Hk; [ destruct Hin | ].
  simpl. destruct Hin as [-> | Hin].
  - rewrite Hk. destruct (largest_id rs) as [m|]; simpl.
    + exists (Z.max k m). split; [ reflexivity | lia ].
    + exists k. split; [ reflexivity | lia ].
  - destruct (IH r k Hin Hk) as (m & Hm & Hle). rewrite Hm.
    destruct (id r0) as [x|]; simpl.
    + exists (Z.max x m). split; [ reflexivity | lia ].
    + exists m. split; [ reflexivity | exact Hle ].
Qed.

(** No stored row has an id above the largest one. *)
Lemma above_largest_free : forall rs k,
  (forall m, largest_id rs = Some m -> m < k) -> id_taken k rs = false.
Proof.
  intros rs k Hb. unfold id_taken.
  destruct (existsb (has_id k) rs) eqn:Hex; [ exfalso | reflexivity ].
  apply existsb_exists in Hex as (r & Hin & Hr). apply has_id_true in Hr.
  destruct (largest_id_bound rs r k Hin Hr) as (m & Hm & Hle).
  specialize (Hb m Hm). lia.
Qed.

(** The rowid SQLite picks is not in use: one more than the largest, or a
    random candidate it has checked to be unused. *)
Lemma next_rowid_fresh : forall t rs k,
  next_rowid t rs = Ok k -> id_taken k rs = false.
Proof.
  intros t rs k H. unfold next_rowid in H.
  destruct (largest_id rs) as [m|] eqn:Hm.
  - destruct (m <? INT64_MAX).
    + injection H as <-. apply above_largest_free.
      intros m' Hm'. rewrite Hm in Hm'. injection Hm' as <-. lia.
    + destruct (find (rowid_unused rs) (rowid_draws t rs)) as [k'|] eqn:Hf;
        [ | discriminate ].
      injection H as <-. apply find_some in Hf as [_ Hu]. unfold rowid_unused in Hu.
      apply andb_prop in Hu as [_ Hu]. apply negb_true_iff in Hu. exact Hu.
  - injection H as <-. apply above_largest_free. intros m' Hm'. rewrite Hm in Hm'.
    discriminate.
Qed.

Lemma insert_row_fresh_id : forall t rs o r,
  insert_row t rs o = Ok r -> exists k, id r = Some k /\ id_taken k rs = false.
Proof.
  intros t rs o r H. unfold insert_row in H.
  destruct (negb _); [ discriminate | ].
  destruct (id (apply_defaults t o)) as [k|] eqn:Hk.
  - destruct (id_taken k rs) eqn:Ht; [ discriminate | ].
    destruct (email_taken _ rs); [ discriminate | ].
    injection H as <-. exists k. split; assumption.
  - destruct (next_rowid t rs) as [k|e] eqn:Hn; [ | discriminate ].
    destruct (email_taken _ rs); [ discriminate | ].
    injection H as <-. exists k. split; [ reflexivity | exact (next_rowid_fresh t rs k Hn) ].
Qed.

Lemma NoDup_snoc : forall (A : Type) (l : list A) x,
  NoDup l -> ~ In x l -> NoDup (l ++ [x]).
Proof.
  intros A l x Hl Hx.
  apply (Permutation_NoDup (Permutation_cons_append l x)). constructor; assumption.
Qed.

Lemma insert_all_rows : forall t objs rs rs' ps,
  insert_all t rs objs = Ok (rs', ps) ->
  rs' = rs ++ ps /\ (NoDup (map id rs) -> NoDup (map id rs')).
Proof.
  intros t objs. induction objs as [|o os IH]; intros rs rs' ps H; simpl in H.
  - injection H as <- <-. rewrite app_nil_r. split; [ reflexivity | tauto ].
  - destruct (insert_row t rs o) as [r|e] eqn:Hr; [ | discriminate ].
    destruct (insert_all t (rs ++ [r]) os) as [[rs1 ps1]|e] eqn:Hrest; [ | discriminate ].
    injection H as <- <-.
    destruct (IH _ _ _ Hrest) as [Heq Hnd]. split.
    + rewrite Heq, <- app_assoc. reflexivity.
    + intro Hnd0. apply Hnd. rewrite map_app. simpl.
      destruct (insert_row_fresh_id t rs o r Hr) as (k & Hk & Ht).
      rewrite Hk. apply NoDup_snoc; [ exact Hnd0 | exact (id_taken_false k rs Ht) ].
Qed.

Lemma NoDup_map_filter : forall (f : Student -> bool) rs,
  NoDup (map id rs) -> NoDup (map id (filter f rs)).
Proof.
  intros f rs. induction rs as [|r rs IH]; intro H; simpl; [ constructor | ].
  inversion H as [|? ? Hnot Hnd]; subst.
  destruct (f r); simpl; [ constructor | ]; try exact (IH Hnd).
  intro Hin. apply Hnot. apply in_map_iff in Hin as (x & Hx & Hin).
  apply filter_In in Hin as [Hin _]. rewrite <- Hx. apply in_map. exact Hin.
Qed.

(** A row switch keeps every id and updates only the row with the reused
    id. *)
Lemma switch_row_rows : forall rs k o rs1,
  switch_row rs k o = Ok rs1 ->
  map id rs1 = map id rs /\
  (forall r, In r rs1 -> In r rs \/ exists r0, In r0 rs /\ id r0 = id r /\ id r <> None).
Proof.
  intros rs k o rs1 H. unfold switch_row in H.
  destruct (negb (id_taken k rs)); [ discriminate | ].
  destruct (negb (grade_check (grade o))); [ discriminate | ].
  destruct (email_taken _ _); [ discriminate | ]. injection H as <-. split.
  - rewrite map_map. apply map_ext. intro r. destruct (has_id k r); reflexivity.
  - intros r Hr. apply in_map_iff in Hr as (x & <- & Hx).
    destruct (has_id k x) eqn:Hk; [ right | left; exact Hx ].
    exists x. simpl. rewrite (has_id_true k x Hk).
    split; [ exact Hx | split; [ reflexivity | discriminate ] ].
Qed.

Lemma switch_all_rows : forall objs rs dels rs1 dels1 ins,
  switch_all rs dels objs = Ok (rs1, dels1, ins) ->
  map id rs1 = map id rs /\
  (forall r, In r rs1 -> In r rs \/ exists r0, In r0 rs /\ id r0 = id r /\ id r <> None).
Proof.
  induction objs as [|x os IH]; intros rs dels rs1 dels1 ins H.
  - simpl in H. injection H as <- _ _. split; [ reflexivity | intros r Hr; left; exact Hr ].
  - rewrite switch_all_cons in H.
    destruct (id x) as [k|].
    + destruct (existsb (Z.eqb k) dels).
      * destruct (switch_row rs k x) as [rs2|err] eqn:Hsw; [ | discriminate ].
        destruct (switch_row_rows _ _ _ _ Hsw) as [E1 O1].
        destruct (IH _ _ _ _ _ H) as [E2 O2].
        split; [ congruence | ].
        intros r Hr. destruct (O2 r Hr) as [Hr2 | (r0 & Hr0 & Hid & Hn)].
        -- exact (O1 r Hr2).
        -- destruct (O1 r0 Hr0) as [Hr1 | (r1 & Hr1 & Hid1 & _)].
           ++ right. exists r0. auto.
           ++ right. exists r1. split; [ exact Hr1 | split; [ congruence | exact Hn ] ].
      * apply keep_insert_ok in H as (ins' & H & _). exact (IH _ _ _ _ _ H).
    + apply keep_insert_ok in H as (ins' & H & _). exact (IH _ _ _ _ _ H).
Qed.

Lemma opt_max_assoc : forall a b c, opt_max a (opt_max b c) = opt_max (opt_max a b) c.
Proof.
  intros [a|] [b|] [c|]; simpl; try reflexivity. f_equal. lia.
Qed.

Lemma largest_id_snoc : forall rs r,
  largest_id (rs ++ [r]) = opt_max (largest_id rs) (id r).
Proof.
  induction rs as [|x rs IH]; intro r; simpl.
  - destruct (id r); reflexivity.
  - rewrite IH. apply opt_max_assoc.
Qed.

(** Below 2^63-1, a student inserted without an id gets one more than the
    largest stored id (1 in an empty table). *)
Lemma insert_row_next_id : forall t rs o r,
  id o = None -> (forall m, largest_id rs = Some m -> m < INT64_MAX) ->
  insert_row t rs o = Ok r ->
  id r = Some (id_base rs + 1) /\ id_base (rs ++ [r]) = id_base rs + 1.
Proof.
  intros t rs o r Hid Hb H. unfold insert_row in H.
  destruct (apply_defaults_fields t o) as (Hi & _ & _ & _). rewrite Hi, Hid in H.
  destruct (negb _); [ discriminate | ].
  unfold id_base, next_rowid in *. rewrite largest_id_snoc.
  destruct (largest_id rs) as [m|].
  - rewrite (proj2 (Z.ltb_lt m INT64_MAX) (Hb m eq_refl)) in H.
    destruct (email_taken _ _); [ discriminate | ]. injection H as <-. simpl.
    split; [ reflexivity | lia ].
  - destruct (email_taken _ _); [ discriminate | ]. injection H as <-. simpl.
    split; reflexivity.
Qed.

(** C8 (counterexample): the script's table holds Albert Einstein (id 1) and
    Alan Turing (id 2). Deleting Alan Turing and then inserting Marie Curie
    gives Marie Curie the id 2. *)
Lemma C8_deleted_id_reused : ~ C8_as_worded.
Proof.
  intro H.
  specialize (H (define_Student 0 no_draws)
                (fst (commit (define_Student 0 no_draws)
                        (add (add empty_session albert_einstein) alan_turing)))
                (mkSession script_rows [] [2]) after_alan_deleted
                (fst (commit (define_Student 0 no_draws) (add after_alan_deleted marie_curie)))
                stored_alan marie_curie 2 []
                [set_id (set_enrolled_date marie_curie (Some 0)) 2]).
  assert (Hf : Forall (fun p => id p <> Some 2)
                 [set_id (set_enrolled_date marie_curie (Some 0)) 2]).
  { apply H; vm_compute; auto. }
  inversion Hf as [|? ? Hne _]. apply Hne. reflexivity.
Qed.

(** C8 (amended): ids stay distinct among the stored rows, after every
    commit, successful or rolled back. No operation alters the id of a row it
    keeps: after a successful commit every row is an old row, a persisted
    object, or an old row updated in place under its own id (a row switch);
    the grade update keeps every id of the rows its autoflush leaves. But a
    student inserted alone without an id, while the largest stored id is
    below 2^63-1, gets one more than that largest id (1 when the table is
    empty), so the id of a deleted student with the largest id is given to
    the next insert. *)
Theorem C8_ids_distinct_but_reused : forall (t : Table) (s : Session),
  (NoDup (map id (committed s)) -> NoDup (map id (rows s)) ->
   NoDup (map id (rows (fst (commit t s))))) /\
  (forall s' ps, commit t s = (s', Ok ps) ->
     forall p, In p (rows s') -> row_origin (rows s) ps p) /\
  (forall rs ps, inactive s = false -> flush t s = Ok (rs, ps) ->
     map id (rows (fst (update_grade_inc t s))) = map id rs) /\
  (forall o s' p, new s = [] -> id o = None ->
     (forall m, largest_id (rows s) = Some m -> m < INT64_MAX) ->
     commit t (add s o) = (s', Ok [p]) ->
     id p = Some (match largest_id (rows s) with
                  | Some m => m + 1
                  | None => 1
                  end)).
Proof.
  intros t s. split; [ | split; [ | split ] ].
  - intros Hc Hr. unfold commit.
    destruct (inactive s); simpl; [ exact Hr | ].
    unfold flush.
    destruct (switch_all (rows s) (deleted s) (new s)) as [[[rs1 dels] ins]|e] eqn:Hs;
      simpl; [ | exact Hc ].
    destruct (insert_all t rs1 ins) as [[rs2 ps]|e] eqn:Hi; simpl; [ | exact Hc ].
    apply NoDup_map_filter. apply (proj2 (insert_all_rows _ _ _ _ _ Hi)).
    rewrite (proj1 (switch_all_rows _ _ _ _ _ _ Hs)). exact Hr.
  - intros s' ps Hc p Hp.
    destruct (commit_ok_inv _ _ _ _ Hc) as (_ & rs1 & dels & ins & rs2 & Hs & Hi & ->).
    simpl in Hp. unfold delete_rows in Hp. apply filter_In in Hp as [Hp _].
    destruct (insert_all_rows _ _ _ _ _ Hi) as [-> _].
    apply in_app_or in Hp as [Hp | Hp].
    + destruct (proj2 (switch_all_rows _ _ _ _ _ _ Hs) p Hp) as [Hin | Hex].
      * left. apply in_or_app. left. exact Hin.
      * right. exact Hex.
    + left. apply in_or_app. right. exact Hp.
  - intros rs ps Ha Hf. unfold update_grade_inc. rewrite Ha, Hf.
    destruct (forallb _ _); simpl; [ rewrite map_map; reflexivity | reflexivity ].
  - intros o s' p Hn Hid Hb Hc.
    destruct (commit_ok_inv _ _ _ _ Hc) as (_ & rs1 & dels & ins & rs2 & Hs & Hi & _).
    simpl in Hs. rewrite Hn in Hs. simpl in Hs. rewrite Hid in Hs. simpl in Hs.
    injection Hs as <- _ <-.
    simpl in Hi. destruct (insert_row t (rows s) o) as [r|e] eqn:Hr; [ | discriminate ].
    simpl in Hi. injection Hi as _ <-.
    destruct (insert_row_next_id t (rows s) o r Hid Hb Hr) as [-> _].
    unfold id_base. destruct (largest_id (rows s)); reflexivity.
Qed.

Lemma C8_ids_distinct_but_reused_witness :
  (NoDup (map id script_rows) -> NoDup (map id script_rows) ->
   NoDup (map id (rows (fst (commit (define_Student 0 no_draws)
                              (mkSession script_rows [] [2])))))) /\
  (forall s' ps, commit (define_Student 0 no_draws) (mkSession script_rows [] [2])
                 = (s', Ok ps) ->
     forall p, In p (rows s') -> row_origin script_rows ps p) /\
  (forall rs ps, inactive (mkSession script_rows [] [2]) = false ->
     flush (define_Student 0 no_draws) (mkSession script_rows [] [2]) = Ok (rs, ps) ->
     map id (rows (fst (update_grade_inc (define_Student 0 no_draws)
                          (mkSession script_rows [] [2])))) = map id rs) /\
  (forall o s' p, new (mkSession script_rows [] [2]) = [] -> id o = None ->
     (forall m, largest_id script_rows = Some m -> m < INT64_MAX) ->
     commit (define_Student 0 no_draws) (add (mkSession script_rows [] [2]) o)
       = (s', Ok [p]) ->
     id p = Some (match largest_id script_rows with
                  | Some m => m + 1
                  | None => 1
                  end)).
Proof.
  exact (C8_ids_distinct_but_reused (define_Student 0 no_draws)
           (mkSession script_rows [] [2])).
Defined.

(** ** The script run *)

(** The two commits give the ids 1 and 2. *)
Example script_ids : map id script_rows = [Some 1; Some 2].
Proof. vm_compute. reflexivity. Qed.

(** The grade update gives 7 and 12. *)
Example script_update :
  map grade (rows (fst (update_grade_inc (define_Student 0 no_draws)
                          (mkSession script_rows [] [])))) =
  [Some 7; Some 12].
Proof. vm_compute. reflexivity. Qed.

(** A second increment would take Alan Turing to 13: it fails and the grades
    stay 7 and 12. *)
Example script_update_twice_fails :
  let s1 := fst (update_grade_inc (define_Student 0 no_draws)
                   (mkSession script_rows [] [])) in
  update_grade_inc (define_Student 0 no_draws) s1 = (s1, Err GradeCheckViolation).
Proof. vm_compute. reflexivity. Qed.

(** Deleting Albert Einstein leaves one row; [first()] on the query by his
    name then returns [None]. *)
Example script_delete :
  let s' := fst (commit (define_Student 0 no_draws) (mkSession script_rows [] [1])) in
  List.length (rows s') = 1%nat /\
  first (query_filter (name_eq "Albert Einstein"%string) s') = None.
Proof. vm_compute. split; reflexivity. Qed.

(** ** The [__main__] run *)

Lemma order_by_grade_desc_two : forall a b l,
  grade_le (grade a) (grade b) = false ->
  order_by_grade_desc [b; a] l -> l = [a; b].
Proof.
  intros a b l Hba [Hp Hs].
  destruct (Permutation_length_2_inv Hp) as [-> | ->]; [ | reflexivity ].
  inversion Hs as [|? ? _ Hr]; subst. inversion Hr as [|? ? Hrel]; subst.
  congruence.
Qed.

(** The script from line 48 on, wherever the class was defined ([t0]) and
    whatever the engine's random rowid candidates ([draws], never drawn
    here): the two commits succeed and print the ids 1 and 2; the students
    print as [Student 1: Albert Einstein, Grade6] and [Student 2: Alan
    Turing, Grade11] (no space after [Grade], unlike the comment at line
    101); the names come in insertion order; every order by descending grade
    is Alan Turing then Albert Einstein, so [limit(1)] gives Alan Turing with
    his birthday; the count is 2; the LIKE filter finds Alan Turing; the
    update gives the grades 7 and 12; and after the delete [query.first()]
    returns [None]. *)
Theorem main_run : forall (t0 : datetime) (draws : list Student -> list Z),
  (exists p1 p2, snd (fst (main_after_inserts t0 draws)) = Ok [p1] /\
     snd (main_after_inserts t0 draws) = Ok [p2] /\ id p1 = Some 1 /\ id p2 = Some 2) /\
  map repr (rows (main_s2 t0 draws)) =
    ["Student 1: Albert Einstein, Grade6"; "Student 2: Alan Turing, Grade11"]%string /\
  map name (rows (main_s2 t0 draws)) =
    [Some "Albert Einstein"; Some "Alan Turing"]%string /\
  (forall l, order_by_grade_desc (rows (main_s2 t0 draws)) l ->
     map (fun r => (name r, grade r)) l =
       [(Some "Alan Turing"%string, Some 11); (Some "Albert Einstein"%string, Some 6)] /\
     map (fun r => (name r, birthday r)) (limit 1 l) =
       [(Some "Alan Turing"%string, Some birthday_alan)]) /\
  count_ids (main_s2 t0 draws) = 2%nat /\
  map name (alan_query (main_s2 t0 draws)) = [Some "Alan Turing"%string] /\
  map (fun r => (name r, grade r)) (rows (main_s3 t0 draws)) =
    [(Some "Albert Einstein"%string, Some 7); (Some "Alan Turing"%string, Some 12)] /\
  (exists s4, main_s4 t0 draws = Some s4 /\
     first (query_filter (name_eq "Albert Einstein"%string) s4) = None /\
     count_ids s4 = 1%nat).
Proof.
  intros t0 draws.
  assert (Hs2 : rows (main_s2 t0 draws) =
            [set_id (set_enrolled_date main_albert (Some t0)) 1;
             set_id (set_enrolled_date main_alan (Some t0)) 2]) by reflexivity.
  split; [ | split; [ | split; [ | split; [ | split; [ | split; [ | split ] ] ] ] ] ].
  - do 2 eexists. split; [ reflexivity | split; [ reflexivity | split; reflexivity ] ].
  - rewrite Hs2. vm_compute. reflexivity.
  - rewrite Hs2. reflexivity.
  - intros l Hl. rewrite Hs2 in Hl.
    apply order_by_grade_desc_two in Hl; [ | reflexivity ].
    subst l. split; reflexivity.
  - reflexivity.
  - unfold alan_query, query_filter. rewrite Hs2. vm_compute. reflexivity.
  - reflexivity.
  - eexists. split; [ reflexivity | split; reflexivity ].
Qed.

(** ** The stored rows keep the constraints *)

(** ** The stored rows keep the constraints *)

Lemma nodup_app_disj : forall (A : Type) (l1 l2 : list A) a,
  NoDup (l1 ++ l2) -> In a l1 -> In a l2 -> False.
Proof.
  intros A l1 l2 a. induction l1 as [|x l1 IH]; intros Hnd H1 H2; [ destruct H1 | ].
  inversion Hnd as [|? ? Hnot Hnd']; subst.
  destruct H1 as [-> | H1]; [ apply Hnot, in_or_app; right; exact H2 | exact (IH Hnd' H1 H2) ].
Qed.

Lemma NoDup_flat_map_filter : forall (f : Student -> list string) (p : Student -> bool) l,
  NoDup (flat_map f l) -> NoDup (flat_map f (filter p l)).
Proof.
  intros f p l. induction l as [|r l IH]; intro Hnd; simpl; [ constructor | ].
  simpl in Hnd. pose proof (NoDup_app_remove_l _ _ Hnd) as Hl.
  destruct (p r); simpl; [ | exact (IH Hl) ].
  apply NoDup_app; [ exact (NoDup_app_remove_r _ _ Hnd) | exact (IH Hl) | ].
  intros a Ha Hb. apply (nodup_app_disj _ (f r) (flat_map f l) a Hnd Ha).
  apply in_flat_map in Hb as (x & Hx & Hax). apply filter_In in Hx as [Hx _].
  apply in_flat_map. exists x. split; assumption.
Qed.

Lemma insert_row_checks : forall t rs o r,
  insert_row t rs o = Ok r ->
  grade_check (grade r) = true /\ email_taken (email r) rs = false /\
  exists k, id r = Some k /\ id_taken k rs = false.
Proof.
  intros t rs o r H. unfold insert_row in H.
  destruct (grade_check (grade (apply_defaults t o))) eqn:Hg; [ | discriminate ].
  simpl in H.
  destruct (id (apply_defaults t o)) as [k|] eqn:Hk.
  - destruct (id_taken k rs) eqn:Ht; [ discriminate | ].
    destruct (email_taken _ rs) eqn:He; [ discriminate | ].
    injection H as <-. split; [ exact Hg | split; [ exact He | exists k; split; assumption ] ].
  - destruct (next_rowid t rs) as [k|e] eqn:Hn; [ | discriminate ].
    destruct (email_taken _ rs) eqn:He; [ discriminate | ].
    injection H as <-. split; [ exact Hg | split; [ exact He | ] ].
    exists k. split; [ reflexivity | exact (next_rowid_fresh t rs k Hn) ].
Qed.

Lemma email_taken_false_notin : forall e rs,
  email_taken (Some e) rs = false -> ~ In e (stored_emails rs).
Proof.
  intros e rs H Hin. apply in_flat_map in Hin as (r & Hr & He).
  destruct (email r) as [e'|] eqn:Er; [ | destruct He ].
  destruct He as [-> | []].
  assert (email_taken (Some e) rs = true) by exact (email_taken_In e r rs Hr Er).
  congruence.
Qed.

Lemma table_ok_snoc : forall t rs o r,
  table_ok rs -> insert_row t rs o = Ok r -> table_ok (rs ++ [r]).
Proof.
  intros t rs o r (Hid & Hsome & Hem & Hgr) H.
  destruct (insert_row_checks t rs o r H) as (Hg & He & k & Hk & Ht).
  split; [ | split; [ | split ] ].
  - rewrite map_app. simpl. rewrite Hk.
    apply NoDup_snoc; [ exact Hid | exact (id_taken_false k rs Ht) ].
  - apply Forall_app. split; [ exact Hsome | constructor; [ congruence | constructor ] ].
  - unfold stored_emails. rewrite flat_map_app. simpl.
    destruct (email r) as [e|] eqn:Er.
    + apply NoDup_snoc; [ exact Hem | apply email_taken_false_notin; exact He ].
    + rewrite !app_nil_r. exact Hem.
  - apply Forall_app. split; [ exact Hgr | constructor; [ exact Hg | constructor ] ].
Qed.

Lemma insert_all_table_ok : forall t objs rs rs' ps,
  table_ok rs -> insert_all t rs objs = Ok (rs', ps) -> table_ok rs'.
Proof.
  intros t objs. induction objs as [|o os IH]; intros rs rs' ps Hok H; simpl in H.
  - injection H as <- _. exact Hok.
  - destruct (insert_row t rs o) as [r|e] eqn:Hr; [ | discriminate ].
    destruct (insert_all t (rs ++ [r]) os) as [[rs1 ps1]|e] eqn:Hrest; [ | discriminate ].
    injection H as <- _. exact (IH _ _ _ (table_ok_snoc t rs o r Hok Hr) Hrest).
Qed.

Lemma table_ok_filter : forall (p : Student -> bool) rs,
  table_ok rs -> table_ok (filter p rs).
Proof.
  intros p rs (Hid & Hsome & Hem & Hgr). split; [ | split; [ | split ] ].
  - exact (NoDup_map_filter p rs Hid).
  - apply Forall_forall. intros r Hr. apply filter_In in Hr as [Hr _].
    rewrite Forall_forall in Hsome. exact (Hsome r Hr).
  - exact (NoDup_flat_map_filter _ p rs Hem).
  - apply Forall_forall. intros r Hr. apply filter_In in Hr as [Hr _].
    rewrite Forall_forall in Hgr. exact (Hgr r Hr).
Qed.

(** Replacing one row by a row with the same id, an accepted grade, and its
    old email or an email no other row has, keeps the constraints. *)
Lemma table_ok_replace : forall pre r post m,
  table_ok (pre ++ r :: post) -> id m = id r -> grade_check (grade m) = true ->
  (email m = email r \/
   exists e, email m = Some e /\ ~ In e (stored_emails (pre ++ post))) ->
  table_ok (pre ++ m :: post).
Proof.
  intros pre r post m (Hid & Hsome & Hem & Hgr) Hi Hg He.
  split; [ | split; [ | split ] ].
  - rewrite map_app in *. simpl in *. rewrite Hi. exact Hid.
  - apply Forall_app in Hsome as [H1 H2]. inversion H2 as [|? ? Hr H3]; subst.
    apply Forall_app. split; [ exact H1 | constructor; [ congruence | exact H3 ] ].
  - unfold stored_emails in *. rewrite flat_map_app in Hem, He |- *. simpl in Hem |- *.
    destruct He as [He | (e & He & Hnot)].
    + rewrite He. exact Hem.
    + rewrite He.
      apply (Permutation_NoDup (Permutation_app_swap_app _ _ _)) in Hem.
      apply NoDup_app_remove_l in Hem.
      apply (Permutation_NoDup (Permutation_app_swap_app [e] _ _)).
      simpl. constructor; assumption.
  - apply Forall_app in Hgr as [H1 H2]. inversion H2 as [|? ? Hr H3]; subst.
    apply Forall_app. split; [ exact H1 | constructor; [ exact Hg | exact H3 ] ].
Qed.

(** With distinct ids, the row with id [k] is the only one. *)
Lemma split_at_id : forall k rs,
  NoDup (map id rs) -> id_taken k rs = true ->
  exists pre r post, rs = pre ++ r :: post /\ has_id k r = true /\
    Forall (fun x => has_id k x = false) (pre ++ post).
Proof.
  intros k rs. induction rs as [|x rs IH]; intros Hnd Ht; [ discriminate | ].
  inversion Hnd as [|? ? Hnot Hnd']; subst.
  unfold id_taken in Ht, IH. simpl in Ht.
  destruct (has_id k x) eqn:Hx.
  - exists [], x, rs. split; [ reflexivity | split; [ exact Hx | ] ].
    simpl. apply Forall_forall. intros y Hy. destruct (has_id k y) eqn:Hyk; [ | reflexivity ].
    exfalso. apply Hnot. rewrite (has_id_true k x Hx), <- (has_id_true k y Hyk).
    apply in_map. exact Hy.
  - simpl in Ht. destruct (IH Hnd' Ht) as (pre & r & post & -> & Hr & Hall).
    exists (x :: pre), r, post.
    split; [ reflexivity | split; [ exact Hr | constructor; [ exact Hx | exact Hall ] ] ].
Qed.

Lemma map_filter_without : forall k o l,
  Forall (fun x => has_id k x = false) l ->
  map (fun x => if has_id k x then switch_merge x o else x) l = l /\
  filter (fun x => negb (has_id k x)) l = l.
Proof.
  intros k o l HF. induction HF as [|x l Hx _ IH]; [ split; reflexivity | ].
  destruct IH as [A B]. simpl. rewrite Hx. simpl. rewrite A, B. split; reflexivity.
Qed.

(** The UPDATE of a row switch keeps the constraints. *)
Lemma switch_row_table_ok : forall rs k o rs1,
  table_ok rs -> switch_row rs k o = Ok rs1 -> table_ok rs1.
Proof.
  intros rs k o rs1 Hok H. pose proof Hok as (Hid & _ & _ & Hgr).
  unfold switch_row in H.
  destruct (id_taken k rs) eqn:Ht; [ | discriminate ]. simpl in H.
  destruct (grade_check (grade o)) eqn:Hg; [ | discriminate ]. simpl in H.
  destruct (email_taken (email o) (filter (fun r => negb (has_id k r)) rs)) eqn:He;
    [ discriminate | ].
  injection H as <-.
  destruct (split_at_id k rs Hid Ht) as (pre & r & post & -> & Hr & Hall).
  apply Forall_app in Hall as [Hpre Hpost].
  destruct (map_filter_without k o pre Hpre) as [Mpre Fpre].
  destruct (map_filter_without k o post Hpost) as [Mpost Fpost].
  rewrite map_app. simpl. rewrite Hr, Mpre, Mpost.
  rewrite filter_app in He. simpl in He. rewrite Hr in He. simpl in He.
  rewrite Fpre, Fpost in He.
  apply (table_ok_replace pre r post); [ exact Hok | reflexivity | | ].
  - simpl. destruct (grade o) as [g|] eqn:Eg; [ exact Hg | ].
    apply Forall_app in Hgr as [_ H2]. inversion H2 as [|? ? Hr2 _]. exact Hr2.
  - simpl. destruct (email o) as [e|] eqn:Ee; [ right | left; reflexivity ].
    exists e. split; [ reflexivity | ]. apply email_taken_false_notin. exact He.
Qed.

Lemma switch_all_table_ok : forall objs rs dels rs1 dels1 ins,
  table_ok rs -> switch_all rs dels objs = Ok (rs1, dels1, ins) -> table_ok rs1.
Proof.
  induction objs as [|x os IH]; intros rs dels rs1 dels1 ins Hok H.
  - simpl in H. injection H as <- _ _. exact Hok.
  - rewrite switch_all_cons in H.
    destruct (id x) as [k|].
    + destruct (existsb (Z.eqb k) dels).
      * destruct (switch_row rs k x) as [rs2|err] eqn:Hsw; [ | discriminate ].
        exact (IH _ _ _ _ _ (switch_row_table_ok _ _ _ _ Hok Hsw) H).
      * apply keep_insert_ok in H as (ins' & H & _). exact (IH _ _ _ _ _ Hok H).
    + apply keep_insert_ok in H as (ins' & H & _). exact (IH _ _ _ _ _ Hok H).
Qed.

(** Every commit keeps the constraints of the stored rows: a successful one
    writes rows that satisfy them, and a failed one rolls back to the
    committed rows, which satisfy them. *)
Theorem commit_keeps_table_ok : forall t s,
  table_ok (committed s) -> table_ok (rows s) ->
  table_ok (committed (fst (commit t s))) /\ table_ok (rows (fst (commit t s))).
Proof.
  intros t s Hc Hr. unfold commit.
  destruct (inactive s); simpl; [ split; assumption | ].
  unfold flush.
  destruct (switch_all (rows s) (deleted s) (new s)) as [[[rs1 dels] ins]|e] eqn:Hs;
    simpl; [ | split; exact Hc ].
  destruct (insert_all t rs1 ins) as [[rs2 ps]|e] eqn:Hi; simpl; [ | split; exact Hc ].
  assert (H : table_ok (delete_rows dels rs2)).
  { apply table_ok_filter.
    exact (insert_all_table_ok t _ _ _ _ (switch_all_table_ok _ _ _ _ _ _ Hr Hs) Hi). }
  split; exact H.
Qed.

Lemma commit_keeps_table_ok_witness :
  table_ok (committed (fst (commit (define_Student 0 no_draws)
                             (add (add empty_session albert_einstein) alan_turing)))) /\
  table_ok (rows (fst (commit (define_Student 0 no_draws)
                        (add (add empty_session albert_einstein) alan_turing)))).
Proof.
  apply commit_keeps_table_ok; repeat split; constructor.
Defined.

(** The script's two stored rows satisfy the constraints. *)
Lemma script_rows_ok : table_ok script_rows.
Proof.
  vm_compute. split; [ | split; [ | split ] ].
  - constructor; [ simpl; intros [H | []]; discriminate | constructor; [ intros [] | constructor ] ].
  - repeat constructor; discriminate.
  - constructor; [ simpl; intros [H | []]; discriminate | constructor; [ intros [] | constructor ] ].
  - repeat constructor.
Qed.

(** ** Rollback, id assignment and the count *)




Lemma insert_all_consecutive : forall t objs rs rs' ps,
  Forall (fun o => id o = None) objs ->
  id_base rs + Z.of_nat (List.length objs) <= INT64_MAX ->
  insert_all t rs objs = Ok (rs', ps) ->
  map id ps = map (fun i => Some (id_base rs + Z.of_nat i)) (seq 1 (List.length ps)).
Proof.
  intros t objs. induction objs as [|o os IH]; intros rs rs' ps Hall Hb H; simpl in H.
  - injection H as _ <-. reflexivity.
  - inversion Hall as [|? ? Ho Hos]; subst.
    destruct (insert_row t rs o) as [r|e] eqn:Hr; [ | discriminate ].
    destruct (insert_all t (rs ++ [r]) os) as [[rs1 ps1]|e] eqn:Hrest; [ | discriminate ].
    injection H as _ <-.
    change (List.length (o :: os)) with (S (List.length os)) in Hb.
    rewrite Nat2Z.inj_succ in Hb.
    assert (Hlt : forall m, largest_id rs = Some m -> m < INT64_MAX).
    { intros m Hm. unfold id_base in Hb. rewrite Hm in Hb. lia. }
    destruct (insert_row_next_id t rs o r Ho Hlt Hr) as [Hk Hbase].
    assert (Hb' : id_base (rs ++ [r]) + Z.of_nat (List.length os) <= INT64_MAX)
      by (rewrite Hbase; lia).
    simpl. rewrite Hk, (IH _ _ _ Hos Hb' Hrest), Hbase.
    f_equal.
    rewrite <- (seq_shift (List.length ps1) 1), map_map. apply map_ext. intro i. f_equal. lia.
Qed.

(** A successful commit of objects staged without ids numbers them
    consecutively from one more than the largest stored id, as long as the
    numbers stay within 2^63-1: with [b] that largest id (0 for an empty
    table), the persisted objects get [b + 1, b + 2, ...] in the order they
    were added. *)
Theorem commit_ids_consecutive : forall t s s' ps,
  Forall (fun o => id o = None) (new s) ->
  id_base (rows s) + Z.of_nat (List.length (new s)) <= INT64_MAX ->
  commit t s = (s', Ok ps) ->
  map id ps = map (fun i => Some (id_base (rows s) + Z.of_nat i)) (seq 1 (List.length ps)).
Proof.
  intros t s s' ps Hall Hb H.
  destruct (commit_ok_inv _ _ _ _ H) as (_ & rs1 & dels & ins & rs2 & Hs & Hi & _).
  rewrite (switch_all_none _ _ _ (no_switch_of_none (deleted s) _ Hall)) in Hs.
  injection Hs as <- _ <-.
  exact (insert_all_consecutive t _ _ _ _ Hall Hb Hi).
Qed.

Lemma commit_ids_consecutive_witness :
  map id [set_id (set_enrolled_date albert_einstein (Some 0)) 1;
          set_id (set_enrolled_date alan_turing (Some 0)) 2] =
  map (fun i => Some (id_base [] + Z.of_nat i)) (seq 1 2).
Proof.
  apply (commit_ids_consecutive (define_Student 0 no_draws)
           (add (add empty_session albert_einstein) alan_turing)
           (fst (commit (define_Student 0 no_draws)
                   (add (add empty_session albert_einstein) alan_turing)))).
  - repeat constructor.
  - unfold id_base, INT64_MAX. simpl. lia.
  - vm_compute. reflexivity.
Defined.

Lemma count_ids_app : forall rs ps,
  Forall (fun p => exists k, id p = Some k) ps ->
  count_ids (mkSession (rs ++ ps) [] []) = (count_ids (mkSession rs [] []) + List.length ps)%nat.
Proof.
  intros rs ps Hps. unfold count_ids. simpl. rewrite filter_app, length_app. f_equal.
  induction Hps as [|p ps (k & Hk) _ IH]; [ reflexivity | ]. simpl. rewrite Hk. simpl.
  rewrite IH. reflexivity.
Qed.

(** A successful commit with no staged deletions raises
    [func.count(Student.id)] by the number of persisted objects. *)
Theorem commit_count : forall t s s' ps,
  deleted s = [] -> commit t s = (s', Ok ps) ->
  count_ids s' = (count_ids s + List.length ps)%nat.
Proof.
  intros t s s' ps Hd H.
  destruct (commit_ok_inv _ _ _ _ H) as (_ & rs1 & dels & ins & rs2 & Hs & Hi & ->).
  rewrite Hd, (switch_all_none _ _ _ (no_switch_nil (new s))) in Hs.
  injection Hs as <- <- <-. rewrite delete_rows_nil.
  destruct (insert_all_rows _ _ _ _ _ Hi) as [-> _].
  pose proof (insert_all_persisted t _ _ _ _ Hi) as HF.
  replace (count_ids s) with (count_ids (mkSession (rows s) [] [])) by reflexivity.
  apply count_ids_app.
  clear Hi H. induction HF as [|x y xs ys (k & Hk & _) _ IH]; [ constructor | ].
  constructor; [ | exact IH ]. exists k. exact Hk.
Qed.

Lemma commit_count_witness :
  count_ids script_session_after = (count_ids (mkSession [] [] []) + 2)%nat.
Proof.
  apply (commit_count (define_Student 0 no_draws)
           (add (add empty_session albert_einstein) alan_turing) script_session_after
           [set_id (set_enrolled_date albert_einstein (Some 0)) 1;
            set_id (set_enrolled_date alan_turing (Some 0)) 2]).
  - reflexivity.
  - vm_compute. reflexivity.
Defined.

Lemma count_ids_all : forall s,
  Forall (fun r => id r <> None) (rows s) -> count_ids s = List.length (rows s).
Proof.
  intros [c rs n d a] H. unfold count_ids. simpl in *.
  induction H as [|r rs Hr _ IH]; [ reflexivity | ]. simpl.
  destruct (id r); [ simpl; rewrite IH; reflexivity | congruence ].
Qed.

Lemma filter_remove_one : forall rs o k,
  NoDup (map id rs) -> In o rs -> id o = Some k ->
  List.length (filter (fun r => negb (has_id k r)) rs) = (List.length rs - 1)%nat.
Proof.
  induction rs as [|r rs IH]; intros o k Hnd Hin Hk; [ destruct Hin | ].
  inversion Hnd as [|? ? Hnot Hnd']; subst. simpl.
  destruct (has_id k r) eqn:Hr; simpl.
  - rewrite (has_id_true k r Hr) in Hnot.
    assert (Hall : filter (fun x => negb (has_id k x)) rs = rs).
    { apply forallb_filter_id. apply forallb_forall. intros x Hx.
      destruct (has_id k x) eqn:E; [ | reflexivity ].
      exfalso. apply Hnot. rewrite <- (has_id_true k x E). apply in_map. exact Hx. }
    rewrite Hall. lia.
  - destruct Hin as [-> | Hin].
    + unfold has_id in Hr. rewrite Hk, Z.eqb_refl in Hr. discriminate.
    + rewrite (IH o k Hnd' Hin Hk). destruct rs; [ destruct Hin | simpl; lia ].
Qed.

(** Deleting a stored row and committing, with nothing else staged, lowers
    [func.count(Student.id)] by exactly one, when the stored rows satisfy the
    constraints (so the id is carried by that row alone). *)
Theorem delete_count : forall t s o s1 s' ps,
  table_ok (rows s) -> new s = [] -> deleted s = [] -> In o (rows s) ->
  delete s o = Some s1 -> commit t s1 = (s', Ok ps) ->
  count_ids s' = (count_ids s - 1)%nat /\ ps = [].
Proof.
  intros t s o s1 s' ps Hok Hn Hd Hin Hdel Hc.
  pose proof Hok as (Hid & Hsome & _ & _).
  rewrite Forall_forall in Hsome.
  destruct (id o) as [k|] eqn:Hk; [ | exfalso; exact (Hsome o Hin Hk) ].
  unfold delete in Hdel. rewrite Hk in Hdel. injection Hdel as <-.
  destruct (commit_ok_inv _ _ _ _ Hc) as (_ & rs1 & dels & ins & rs2 & Hs & Hi & ->).
  simpl in Hs. rewrite Hn, Hd in Hs. simpl in Hs. injection Hs as <- <- <-.
  simpl in Hi. injection Hi as <- <-. split; [ | reflexivity ].
  rewrite count_ids_all; [ | exact (proj1 (proj2 (table_ok_filter _ _ Hok))) ].
  rewrite count_ids_all; [ | apply Forall_forall; exact Hsome ].
  simpl. unfold delete_rows.
  rewrite <- (filter_remove_one (rows s) o k Hid Hin Hk).
  f_equal. apply filter_ext. intro r. simpl. rewrite orb_false_r. reflexivity.
Qed.

Lemma delete_count_witness :
  count_ids (fst (commit (define_Student 0 no_draws) (mkSession script_rows [] [1]))) =
    (count_ids (mkSession script_rows [] []) - 1)%nat /\ [] = @nil Student.
Proof.
  apply (delete_count (define_Student 0 no_draws) (mkSession script_rows [] [])
           stored_albert (mkSession script_rows [] [1]) _ []).
  - exact script_rows_ok.
  - reflexivity.
  - reflexivity.
  - vm_compute. left. reflexivity.
  - vm_compute. reflexivity.
  - vm_compute. reflexivity.
Defined.

(** Once the update's autoflush has succeeded with rows that all pass the
    CHECK, the bulk increment fails exactly when one of those rows is in
    grade 12 (NULL grades never block it). *)
Theorem update_fails_iff_grade_12 : forall t s rs ps,
  inactive s = false -> flush t s = Ok (rs, ps) ->
  Forall (fun r => grade_check (grade r) = true) rs ->
  ((exists e, snd (update_grade_inc t s) = Err e) <->
   exists r, In r rs /\ grade r = Some 12).
Proof.
  intros t s rs ps Ha Hfl Hall. rewrite Forall_forall in Hall.
  unfold update_grade_inc. rewrite Ha, Hfl.
  destruct (forallb (fun r => grade_check (grade r)) (map inc_grade rs)) eqn:Hf;
    simpl; split.
  - intros [e He]. discriminate.
  - intros (r & Hr & Hg). rewrite forallb_forall in Hf.
    specialize (Hf (inc_grade r) (in_map _ _ _ Hr)).
    unfold inc_grade in Hf. simpl in Hf. rewrite Hg in Hf. discriminate.
  - intros _. apply Bool.not_true_iff_false in Hf.
    destruct (existsb (fun r => negb (grade_check (grade (inc_grade r)))) rs) eqn:Hex.
    + apply existsb_exists in Hex as (r & Hr & Hbad). exists r. split; [ exact Hr | ].
      specialize (Hall r Hr). unfold inc_grade in Hbad. simpl in Hbad.
      destruct (grade r) as [g|]; [ | discriminate ].
      simpl in Hall, Hbad. apply andb_prop in Hall as [A B].
      apply Z.leb_le in A. apply Z.leb_le in B.
      destruct ((1 <=? g + 1) && (g + 1 <=? 12)) eqn:C; [ discriminate | ].
      apply andb_false_iff in C as [C | C]; apply Z.leb_gt in C; f_equal; lia.
    + exfalso. apply Hf. apply forallb_forall. intros x Hx.
      apply in_map_iff in Hx as (r & <- & Hr).
      destruct (grade_check (grade (inc_grade r))) eqn:E; [ reflexivity | ].
      assert (existsb (fun r => negb (grade_check (grade (inc_grade r)))) rs = true)
        by (apply existsb_exists; exists r; rewrite E; split; [ exact Hr | reflexivity ]).
      congruence.
  - intros _. exists GradeCheckViolation. reflexivity.
Qed.

Lemma update_fails_iff_grade_12_witness :
  ((exists e, snd (update_grade_inc (define_Student 0 no_draws)
                     (mkSession script_rows [] [])) = Err e) <->
   exists r, In r script_rows /\ grade r = Some 12).
Proof.
  apply (update_fails_iff_grade_12 (define_Student 0 no_draws)
           (mkSession script_rows [] []) script_rows []).
  - reflexivity.
  - vm_compute. reflexivity.
  - vm_compute. repeat constructor.
Defined.
(** ** [LIKE] *)

Lemma like_star_iff : forall p s,
  like_match ("%"%char :: p) s = true <->
  exists pre suf, s = pre ++ suf /\ like_match p suf = true.
Proof.
  intros p s. induction s as [|d s IH].
  - simpl. rewrite orb_false_r. split.
    + intro H. exists [], []. split; [ reflexivity | exact H ].
    + intros (pre & suf & Heq & H). symmetry in Heq. apply app_eq_nil in Heq as [-> ->].
      exact H.
  - change (like_match ("%"%char :: p) (d :: s))
      with (like_match p (d :: s) || like_match ("%"%char :: p) s).
    rewrite orb_true_iff, IH. split.
    + intros [H | (pre & suf & -> & H)].
      * exists [], (d :: s). split; [ reflexivity | exact H ].
      * exists (d :: pre), suf. split; [ reflexivity | exact H ].
    + intros ([|c pre] & suf & Heq & H).
      * left. simpl in Heq. subst. exact H.
      * right. injection Heq as -> ->. exists pre, suf. split; [ reflexivity | exact H ].
Qed.

Lemma like_literal_iff : forall w q s,
  forallb literal_char w = true ->
  (like_match (w ++ q) s = true <->
   exists s1 s2, s = s1 ++ s2 /\ map ascii_lower s1 = map ascii_lower w /\
                 like_match q s2 = true).
Proof.
  induction w as [|c w IH]; intros q s Hw.
  - simpl. split.
    + intro H. exists [], s. repeat split. exact H.
    + intros ([|x s1] & s2 & -> & Hm & H); [ exact H | discriminate ].
  - simpl in Hw. apply andb_prop in Hw as [Hc Hw].
    unfold literal_char in Hc. apply andb_prop in Hc as [H1 H2].
    apply negb_true_iff in H1. apply negb_true_iff in H2.
    simpl. rewrite H1. destruct s as [|d s].
    + split; [ discriminate | ].
      intros ([|x s1] & s2 & Heq & Hm & _); [ discriminate | discriminate ].
    + rewrite H2. simpl. rewrite andb_true_iff, Ascii.eqb_eq, (IH q s Hw). split.
      * intros (Hl & s1 & s2 & -> & Hm & H).
        exists (d :: s1), s2. split; [ reflexivity | split; [ simpl; rewrite Hm, Hl; reflexivity | exact H ] ].
      * intros ([|x s1] & s2 & Heq & Hm & H); [ discriminate | ].
        injection Heq as <- ->. injection Hm as Hl Hm. split; [ symmetry; exact Hl | ].
        exists s1, s2. repeat split; assumption.
Qed.

(** [x LIKE '%w%'] for a pattern [w] without wildcards holds exactly when
    [x] contains a stretch of characters equal to [w] up to the case of ASCII
    letters; so [Student.name.like('%Alan%')] finds "Alan Turing" and also
    "ALAN TURING" or "Catalan". *)
Theorem like_contains : forall w x,
  forallb literal_char w = true ->
  (like_match ("%"%char :: w ++ ["%"%char]) x = true <->
   exists pre mid suf, x = pre ++ mid ++ suf /\ map ascii_lower mid = map ascii_lower w).
Proof.
  intros w x Hw. rewrite like_star_iff. split.
  - intros (pre & suf & -> & H). apply (like_literal_iff w _ suf Hw) in H
      as (s1 & s2 & -> & Hm & _).
    exists pre, s1, s2. split; [ reflexivity | exact Hm ].
  - intros (pre & mid & suf & -> & Hm). exists pre, (mid ++ suf). split; [ reflexivity | ].
    apply (like_literal_iff w _ _ Hw). exists mid, suf. split; [ reflexivity | split; [ exact Hm | ] ].
    apply like_star_iff. exists suf, []. rewrite app_nil_r. split; reflexivity.
Qed.

Lemma like_contains_witness :
  like "ALAN TURING" "%Alan%" = true /\
  exists pre mid suf, list_ascii_of_string "ALAN TURING" = pre ++ mid ++ suf /\
    map ascii_lower mid = map ascii_lower (list_ascii_of_string "Alan").
Proof.
  assert (H : like "ALAN TURING" "%Alan%" = true) by reflexivity.
  split; [ exact H | ].
  apply (like_contains (list_ascii_of_string "Alan") (list_ascii_of_string "ALAN TURING")).
  - reflexivity.
  - exact H.
Defined.
